(** * ResizeDetector: a model of src/components/ResizeDetector.js

    The component is a React class whose methods mutate [this] and call
    three collaborators: a ResizeObserver, a raf-schd scheduler and an
    optional lodash debounce/throttle wrapper.  The methods are embedded
    as functions on a record [world] that holds the fields of [this]
    together with the objects the instance owns (the scheduler wrappers it
    allocated, the rate-limiting wrapper, the observer's target set) and a
    trace of the calls that leave the component. *)

From Stdlib Require Import ZArith.
From stdpp Require Import base option list gmap strings.

#[local] Set Warnings "-register-all".
Open Scope Z_scope.

(** ** JavaScript values *)

(** DOM nodes are compared by identity ([===]); an address stands for one. *)
Definition node := positive.

(** A width or height: [undefined] or a number of pixels.  Pixel values are
    taken in [Z]; [NaN] is not represented, so [!==] is plain disequality. *)
Inductive dim := Undefined | Px (z : Z).

#[global] Instance dim_eq_dec : EqDecision dim.
Proof. solve_decision. Defined.

(** [a !== b] *)
Definition strict_ne (a b : dim) : bool := bool_decide (a ≠ b).

(** The object [{ width, height }]: the component state, the argument of
    the updater, [childProps], and the part of a content rectangle the
    handler reads. *)
Record size := Size { width : dim; height : dim }.

#[global] Instance size_eq_dec : EqDecision size.
Proof. solve_decision. Defined.

(** Values a React attribute can carry in this model. *)
Inductive attr := AUndefined | ANum (z : Z) | AStr (s : string) | ABool (b : bool).

Definition attr_of_dim (d : dim) : attr :=
  match d with Undefined => AUndefined | Px z => ANum z end.

(** A React element: its type ([undefined] when cloned from something that
    is not an element) and its props. *)
Record relement := RElement { el_type : option string; el_props : gmap string attr }.

(** The values the duck-typed props ([render], [children], [targetDomEl],
    [onResize], a ref's [current]) range over.  A function is applied to
    [{ width, height }]. *)
Inductive jsval :=
| JUndefined
| JNull
| JBool (b : bool)
| JNum (z : Z)
| JStr (s : string)
| JFunction (f : size -> jsval)
| JDomElement (n : node)
| JReactElement (el : relement)
| JArray (l : list jsval).

(** [!!v] *)
Definition truthy (v : jsval) : bool :=
  match v with
  | JUndefined | JNull => false
  | JBool b => b
  | JNum z => negb (z =? 0)
  | JStr s => negb (String.eqb s "")
  | JFunction _ | JDomElement _ | JReactElement _ | JArray _ => true
  end.

(** Modelled from the spec: [isFunction] of lib/utils, which is not under
    src/; the test that an optional callback is present. *)
Definition isFunction (v : jsval) : bool :=
  match v with JFunction _ => true | _ => false end.

(** Modelled from the spec: [isDOMElement] of lib/utils, which is not
    under src/; the test that a value is a DOM element. *)
Definition isDOMElement (v : jsval) : bool :=
  match v with JDomElement _ => true | _ => false end.

(** The two rate-limiting primitives. *)
Inductive handle := debounce | throttle.

(** Modelled from the spec: [getHandle] of lib/utils, which is not under
    src/; [refreshMode] selects debounce, throttle or none.  ([isSSR], the
    fourth import from lib/utils, tells a non-browser context; it is the
    field [isSSR] of [world] below.) *)
Definition getHandle (refreshMode : option string) : option handle :=
  match refreshMode with
  | Some "debounce"%string => Some debounce
  | Some "throttle"%string => Some throttle
  | _ => None
  end.

(** React's [isValidElement] and [Array.isArray]. *)
Definition isValidElement (v : jsval) : bool :=
  match v with JReactElement _ => true | _ => false end.

Definition Array_isArray (v : jsval) : bool :=
  match v with JArray _ => true | _ => false end.

(** React's [cloneElement(element, { width, height })]: it throws on [null]
    and [undefined]; otherwise it copies [element.props] (none when the
    value is not an element), sets [width] and [height], and keeps
    [element.type]. *)
Definition cloneElement (v : jsval) (childProps : size) : option jsval :=
  let inject (ps : gmap string attr) :=
    <["height" := attr_of_dim (height childProps)]>
      (<["width" := attr_of_dim (width childProps)]> ps) in
  match v with
  | JUndefined | JNull => None
  | JReactElement el => Some (JReactElement (RElement (el_type el) (inject (el_props el))))
  | _ => Some (JReactElement (RElement None (inject ∅)))
  end.

(** ** Props *)

Module Props.

Record t := Make {
  handleWidth : bool;
  handleHeight : bool;
  skipOnMount : bool;
  refreshRate : Z;
  refreshMode : option string;
  refreshOptions : option (bool * bool);   (* leading, trailing *)
  querySelector : option string;           (* null or a selector *)
  targetDomEl : jsval;
  targetRef : option jsval;                (* null or a ref with its [current] *)
  onResize : jsval;
  render : jsval;
  children : jsval;
  nodeType : string
}.

(** [ResizeDetector.defaultProps] *)
Definition defaultProps : t :=
  {| handleWidth := true; handleHeight := true; skipOnMount := false;
     refreshRate := 1000; refreshMode := None; refreshOptions := None;
     querySelector := None; targetDomEl := JNull; targetRef := None;
     onResize := JNull; render := JUndefined; children := JNull;
     nodeType := "div" |}.

End Props.

(** ** Observation entries *)

(** The value of [entry.contentRect]. *)
Inductive rectval := RectUndefined | RectNull | Rect (r : size).

(** What the handler may find in the array it is given: [null],
    [undefined], or an entry object. *)
Inductive entry :=
| EntryNull
| EntryUndefined
| Entry (target : node) (contentRect : rectval).

(** [entry && entry.contentRect] *)
Definition entry_and_contentRect (e : entry) : rectval :=
  match e with
  | EntryNull => RectNull
  | EntryUndefined => RectUndefined
  | Entry _ r => r
  end.

(** [v || {}] *)
Definition or_empty_object (v : rectval) : rectval :=
  match v with
  | Rect r => Rect r
  | RectUndefined | RectNull => Rect (Size Undefined Undefined)
  end.

(** [const { width, height } = v]: a TypeError on [null] and [undefined]. *)
Definition destructure (v : rectval) : option size :=
  match v with
  | Rect r => Some r
  | RectUndefined | RectNull => None
  end.

(** ** The DOM seen by a lifecycle call *)

Record dom := Dom {
  document_querySelector : string -> option node;
  findDOMNode : option node;            (* the node React rendered for [this] *)
  parentElement : node -> option node
}.

(** ** The instance and what it owns *)

(** A raf-schd wrapper: the last arguments it was called with and whether
    an animation frame is requested. *)
Record rafSchd := RafSchd { lastArgs : option size; frameId : bool }.

(** Calls that leave the component, oldest first.  [Updater] records a
    call of the scheduler wrapper returned by [createUpdater]. *)
Inductive effect :=
| Updater (s : size)
| OnResize (w h : dim)
| SetState (s : size)
| Observe (n : node)
| Disconnect.

(** The resize handler as a function value: the method itself, or the
    method wrapped by the primitive [getHandle] returned. *)
Inductive handlerFn := plainHandler | wrappedHandler (h : handle).

Record world := World {
  (* [this.*] *)
  props : Props.t;
  state : size;
  skipOnMount : bool;
  raf : option nat;                     (* null, or the address of a wrapper *)
  unmounted : bool;
  targetRef : jsval;                    (* [this.targetRef.current] *)
  observableElement : option node;
  resizeHandler : option handlerFn;     (* null after [cancelHandler] *)
  (* objects reachable from [this] *)
  callback : handlerFn;                 (* the function the observer was built with *)
  timer : option (list entry);          (* pending call of the rate-limiting wrapper *)
  schedulers : list rafSchd;            (* every raf-schd wrapper allocated so far *)
  observed : gset node;                 (* the observer's registered targets *)
  (* the environment and the trace *)
  isSSR : bool;
  log : list effect
}.

(** Field updates ([this.x = v]). *)
Definition set_props v w := World v (state w) (skipOnMount w) (raf w) (unmounted w) (targetRef w) (observableElement w) (resizeHandler w) (callback w) (timer w) (schedulers w) (observed w) (isSSR w) (log w).
Definition set_state v w := World (props w) v (skipOnMount w) (raf w) (unmounted w) (targetRef w) (observableElement w) (resizeHandler w) (callback w) (timer w) (schedulers w) (observed w) (isSSR w) (log w).
Definition set_skipOnMount v w := World (props w) (state w) v (raf w) (unmounted w) (targetRef w) (observableElement w) (resizeHandler w) (callback w) (timer w) (schedulers w) (observed w) (isSSR w) (log w).
Definition set_raf v w := World (props w) (state w) (skipOnMount w) v (unmounted w) (targetRef w) (observableElement w) (resizeHandler w) (callback w) (timer w) (schedulers w) (observed w) (isSSR w) (log w).
Definition set_unmounted v w := World (props w) (state w) (skipOnMount w) (raf w) v (targetRef w) (observableElement w) (resizeHandler w) (callback w) (timer w) (schedulers w) (observed w) (isSSR w) (log w).
Definition set_targetRef v w := World (props w) (state w) (skipOnMount w) (raf w) (unmounted w) v (observableElement w) (resizeHandler w) (callback w) (timer w) (schedulers w) (observed w) (isSSR w) (log w).
Definition set_observableElement v w := World (props w) (state w) (skipOnMount w) (raf w) (unmounted w) (targetRef w) v (resizeHandler w) (callback w) (timer w) (schedulers w) (observed w) (isSSR w) (log w).
Definition set_resizeHandler v w := World (props w) (state w) (skipOnMount w) (raf w) (unmounted w) (targetRef w) (observableElement w) v (callback w) (timer w) (schedulers w) (observed w) (isSSR w) (log w).
Definition set_timer v w := World (props w) (state w) (skipOnMount w) (raf w) (unmounted w) (targetRef w) (observableElement w) (resizeHandler w) (callback w) v (schedulers w) (observed w) (isSSR w) (log w).
Definition set_schedulers v w := World (props w) (state w) (skipOnMount w) (raf w) (unmounted w) (targetRef w) (observableElement w) (resizeHandler w) (callback w) (timer w) v (observed w) (isSSR w) (log w).
Definition set_observed v w := World (props w) (state w) (skipOnMount w) (raf w) (unmounted w) (targetRef w) (observableElement w) (resizeHandler w) (callback w) (timer w) (schedulers w) v (isSSR w) (log w).
Definition emit (e : effect) w := World (props w) (state w) (skipOnMount w) (raf w) (unmounted w) (targetRef w) (observableElement w) (resizeHandler w) (callback w) (timer w) (schedulers w) (observed w) (isSSR w) (log w ++ [e]).

(** ** The collaborators *)

(** raf-schd.  Calling the wrapper stores the arguments and requests a
    frame unless one is already requested; [cancel] withdraws the request;
    when the frame comes the wrapped function runs on the stored
    arguments. *)
Definition wrapperFn (s : size) (r : rafSchd) : rafSchd := RafSchd (Some s) true.
Definition wrapperFn_cancel (r : rafSchd) : rafSchd := RafSchd (lastArgs r) false.

(** ResizeObserver.  [observe] adds the target to the registered targets
    unless it is one already; [disconnect] empties them. *)
Definition observe (n : node) (w : world) : world :=
  emit (Observe n) (set_observed ({[n]} ∪ observed w) w).

Definition disconnect (w : world) : world :=
  emit Disconnect (set_observed ∅ w).

(** ** The methods of the class *)

Definition constructor (ssr : bool) (p : Props.t) : world :=
  let handler :=
    match getHandle (Props.refreshMode p) with
    | Some h => wrappedHandler h
    | None => plainHandler
    end in
  {| props := p;
     state := Size Undefined Undefined;
     skipOnMount := Props.skipOnMount p;
     raf := None;
     unmounted := false;
     targetRef := JNull;
     observableElement := None;
     resizeHandler := Some handler;
     callback := handler;
     timer := None;
     schedulers := [];
     observed := ∅;
     isSSR := ssr;
     log := [] |}.

Definition cancelHandler (w : world) : world :=
  match resizeHandler w with
  | Some (wrappedHandler _) => set_resizeHandler None (set_timer None w)
  | Some plainHandler | None => w
  end.

Definition rafClean (w : world) : world :=
  match raf w with
  | Some a => set_raf None (set_schedulers (alter wrapperFn_cancel a (schedulers w)) w)
  | None => w
  end.

Inductive renderType := renderProp | childFunction | child | childArray | parent.

#[global] Instance renderType_eq_dec : EqDecision renderType.
Proof. solve_decision. Defined.

Definition getRenderType (w : world) : renderType :=
  if isFunction (Props.render (props w)) then renderProp
  else if isFunction (Props.children (props w)) then childFunction
  else if isValidElement (Props.children (props w)) then child
  else if Array_isArray (Props.children (props w)) then childArray
  else parent.

(** The node a DOM-element value denotes. *)
Definition as_node (v : jsval) : option node :=
  match v with JDomElement n => Some n | _ => None end.

(** The result is [None] for both [undefined] and [null]: the only caller
    tests it with [!element].  [document.querySelector] is the [dom]'s. *)
Definition getElement (d : dom) (w : world) : option node :=
  let querySelector := Props.querySelector (props w) in
  let targetDomEl := Props.targetDomEl (props w) in
  if isSSR w then None
  else if truthy (from_option JStr JNull querySelector)
  then document_querySelector d (default "" querySelector)
  else if truthy targetDomEl && isDOMElement targetDomEl then as_node targetDomEl
  else if isDOMElement (targetRef w) then as_node (targetRef w)
  else
    match findDOMNode d with
    | None => None
    | Some currentElement =>
        match getRenderType w with
        | renderProp => Some currentElement
        | childFunction => Some currentElement
        | child => Some currentElement
        | childArray => Some currentElement
        | parent => parentElement d currentElement
        end
    end.

(** The first statement of [attachObserver]: the external ref's node is
    copied into [this.targetRef]. *)
Definition copy_targetRef (w : world) : world :=
  match Props.targetRef (props w) with
  | Some current => if truthy current then set_targetRef current w else w
  | None => w
  end.

Definition attachObserver (d : dom) (w : world) : world :=
  let w := copy_targetRef w in
  match getElement d w with
  | None => w
  | Some element =>
      if bool_decide (observableElement w = Some element) then w
      else observe element (set_observableElement (Some element) w)
  end.

Definition componentDidMount (d : dom) (w : world) : world := attachObserver d w.

(** React has replaced [this.props] before it calls [componentDidUpdate]. *)
Definition componentDidUpdate (d : dom) (w : world) : world := attachObserver d w.

Definition componentWillUnmount (w : world) : world :=
  set_unmounted true (cancelHandler (rafClean (disconnect w))).

(** The function given to [rafSchd] in [createUpdater]; [setState] is
    applied at once. *)
Definition flush (s : size) (w : world) : world :=
  let w :=
    if isFunction (Props.onResize (props w))
    then emit (OnResize (width s) (height s)) w
    else w in
  emit (SetState s) (set_state s w).

(** The new wrapper is allocated at the end of [schedulers]; its address
    is both stored in [this.raf] and returned. *)
Definition createUpdater (w : world) : world * nat :=
  let w := rafClean w in
  let a := length (schedulers w) in
  (set_raf (Some a) (set_schedulers (schedulers w ++ [RafSchd None false]) w), a).

(** [updater({ width, height })] *)
Definition call_updater (a : nat) (s : size) (w : world) : world :=
  emit (Updater s) (set_schedulers (alter (wrapperFn s) a (schedulers w)) w).

(** [entries.forEach(f)], where [f] may throw. *)
Fixpoint forEach (f : world -> entry -> option world) (w : world) (entries : list entry)
  : option world :=
  match entries with
  | [] => Some w
  | e :: entries => w' ← f w e; forEach f w' entries
  end.

(** The body of the arrow function passed to [forEach]. *)
Definition forEach_body (widthCurrent heightCurrent : dim) (handleWidth handleHeight : bool)
    (updater : nat) (w : world) (e : entry) : option world :=
  s ← destructure (or_empty_object (entry_and_contentRect e));
  let isWidthChanged := handleWidth && strict_ne widthCurrent (width s) in
  let isHeightChanged := handleHeight && strict_ne heightCurrent (height s) in
  let isSizeChanged := isWidthChanged || isHeightChanged in
  let shouldSetSize := negb (skipOnMount w) && isSizeChanged && negb (isSSR w) in
  let w := if shouldSetSize then call_updater updater s w else w in
  Some (set_skipOnMount false w).

(** [None] is an exception escaping the handler. *)
Definition createResizeHandler (w : world) (entries : list entry) : option world :=
  let widthCurrent := width (state w) in
  let heightCurrent := height (state w) in
  let handleWidth := Props.handleWidth (props w) in
  let handleHeight := Props.handleHeight (props w) in
  if negb handleWidth && negb handleHeight then Some w
  else
    let '(w, updater) := createUpdater w in
    forEach (forEach_body widthCurrent heightCurrent handleWidth handleHeight updater) w entries.

(** [render()]; [None] is an exception. *)
Definition render (w : world) : option jsval :=
  let childProps := Size (width (state w)) (height (state w)) in
  match getRenderType w with
  | renderProp =>
      match Props.render (props w) with JFunction f => Some (f childProps) | _ => None end
  | childFunction =>
      match Props.children (props w) with JFunction f => Some (f childProps) | _ => None end
  | child => cloneElement (Props.children (props w)) childProps
  | childArray =>
      match Props.children (props w) with
      | JArray l =>
          JArray <$> mapM (fun el => if truthy el then cloneElement el childProps
                                     else Some (JBool false)) l
      | _ => None
      end
  | parent => Some (JReactElement (RElement (Some (Props.nodeType (props w))) ∅))
  end.

(** ** The environment

    Everything that can happen to a constructed instance.  Time is left
    out: whether the debounce/throttle wrapper runs the handler at once
    ([lead]) or arms its timer, and whether the expiring timer runs it
    ([trail]), is decided by the event, so every timing and every setting
    of [refreshRate] and [refreshOptions] is some sequence of events. *)
Inductive event :=
| DidUpdate (p : Props.t) (d : dom)
    (* re-render with props [p], then [componentDidUpdate] *)
| Resized (rs : list (node * size)) (lead : bool)
    (* the listed elements got the listed content sizes *)
| Callback (entries : list entry) (lead : bool)
    (* the function the observer was built with is called on [entries] *)
| TimerExpired (trail : bool)
| AnimationFrame
| WillUnmount.

(** The function the observer was built with, applied to [entries]. *)
Definition invoke_callback (entries : list entry) (lead : bool) (w : world) : option world :=
  match callback w with
  | plainHandler => createResizeHandler w entries
  | wrappedHandler _ =>
      if lead then createResizeHandler (set_timer None w) entries
      else Some (set_timer (Some entries) w)
  end.

(** The observer reports registered targets only, and calls back only when
    it has something to report. *)
Definition notifications (w : world) (rs : list (node * size)) : list entry :=
  (fun r => Entry r.1 (Rect r.2)) <$> filter (fun r => r.1 ∈ observed w) rs.

Definition timer_expired (trail : bool) (w : world) : option world :=
  match timer w with
  | Some entries =>
      if trail then createResizeHandler (set_timer None w) entries
      else Some (set_timer None w)
  | None => Some w
  end.

(** One wrapper at the frame: if it requested the frame, the request is
    consumed and the wrapped function runs on the stored arguments. *)
Definition run_frame (w : world) (a : nat) : option world :=
  match schedulers w !! a with
  | Some r =>
      if frameId r then
        s ← lastArgs r;
        Some (flush s (set_schedulers (alter wrapperFn_cancel a (schedulers w)) w))
      else Some w
  | None => Some w
  end.

Fixpoint run_frames (w : world) (addresses : list nat) : option world :=
  match addresses with
  | [] => Some w
  | a :: addresses => w' ← run_frame w a; run_frames w' addresses
  end.

Definition animation_frame (w : world) : option world :=
  run_frames w (seq 0 (length (schedulers w))).

Definition step (w : world) (ev : event) : option world :=
  match ev with
  | DidUpdate p d => Some (componentDidUpdate d (set_props p w))
  | Resized rs lead =>
      match notifications w rs with
      | [] => Some w
      | entries => invoke_callback entries lead w
      end
  | Callback entries lead => invoke_callback entries lead w
  | TimerExpired trail => timer_expired trail w
  | AnimationFrame => animation_frame w
  | WillUnmount => Some (componentWillUnmount w)
  end.

Fixpoint run (w : world) (evs : list event) : option world :=
  match evs with
  | [] => Some w
  | ev :: evs => w' ← step w ev; run w' evs
  end.

(** Mounting: the constructor, the first render, [componentDidMount]. *)
Definition mount (ssr : bool) (p : Props.t) (d : dom) : world :=
  componentDidMount d (constructor ssr p).

(** ** Vocabulary of the statements *)

(** The width and height the handler reads off an entry. *)
Definition entry_size (e : entry) : size :=
  match e with
  | Entry _ (Rect r) => r
  | _ => Size Undefined Undefined
  end.

(** An entry is malformed when it is null or undefined or has no content
    rectangle. *)
Definition malformed (e : entry) : bool :=
  match e with
  | Entry _ (Rect _) => false
  | _ => true
  end.

(** A size differs from [current] in a handled dimension. *)
Definition isSizeChanged (handleWidth handleHeight : bool) (current s : size) : bool :=
  handleWidth && strict_ne (width current) (width s)
  || handleHeight && strict_ne (height current) (height s).

(** A size change that qualifies for forwarding in world [w]. *)
Definition qualifies (w : world) (s : size) : bool :=
  isSizeChanged (Props.handleWidth (props w)) (Props.handleHeight (props w)) (state w) s
  && negb (isSSR w).

(** The handler looks at entries at all. *)
Definition enabled (w : world) : bool :=
  Props.handleWidth (props w) || Props.handleHeight (props w).

(** State updates and [onResize] calls in a trace. *)
Definition is_update (e : effect) : bool :=
  match e with
  | OnResize _ _ | SetState _ => true
  | _ => false
  end.

Definition updates (w : world) : list effect := filter is_update (log w).

(** The [onResize] call of a flush, if the prop is a function. *)
Definition onResize_call (w : world) (s : size) : list effect :=
  if isFunction (Props.onResize (props w)) then [OnResize (width s) (height s)] else [].

(** At most the wrapper at address [o] has a frame requested, and a
    requested frame has arguments stored. *)
Definition only_pending (l : list rafSchd) (o : option nat) : Prop :=
  forall a r, l !! a = Some r -> frameId r = true -> o = Some a /\ is_Some (lastArgs r).

(** Every wrapper but the one in [this.raf] has been cancelled. *)
Definition coherent (w : world) : Prop := only_pending (schedulers w) (raf w).

(** No wrapper has a frame requested. *)
Definition idle (w : world) : bool :=
  forallb (fun r => negb (frameId r)) (schedulers w).

(** No frame is requested and no rate-limited call is waiting. *)
Definition quiescent (w : world) : bool :=
  idle w && match timer w with None => true | Some _ => false end.

(** The size waiting in [this.raf] for the next frame. *)
Definition pending_flush (w : world) : option size :=
  a ← raf w; r ← schedulers w !! a; if frameId r then lastArgs r else None.

(** The sizes a batch forwards to the updater, in delivery order: the
    qualifying ones, the first entry left out while the mount flag is up. *)
Definition forwarded (w : world) (entries : list entry) : list size :=
  filter (qualifies w) (entry_size <$> (if skipOnMount w then tail entries else entries)).

(** The world after [forEach] has called the wrapper at [a] on the sizes
    [fw] and left the mount flag at [sk]. *)
Definition batch_result (a : nat) (fw : list size) (sk : bool) (w : world) : world :=
  World (props w) (state w) sk (raf w) (unmounted w) (targetRef w) (observableElement w)
    (resizeHandler w) (callback w) (timer w)
    (match last fw with
     | Some s => alter (wrapperFn s) a (schedulers w)
     | None => schedulers w
     end)
    (observed w) (isSSR w) (log w ++ (Updater <$> fw)).

(** The frame callback of the wrapper in [this.raf] is consumed; the field
    itself is left as it is. *)
Definition consume_frame (w : world) : world :=
  match raf w with
  | Some a => set_schedulers (alter wrapperFn_cancel a (schedulers w)) w
  | None => w
  end.

(** Case analysis on the branches of [attachObserver]. *)
Ltac attach_cases :=
  unfold componentDidUpdate, componentDidMount, attachObserver, copy_targetRef, observe;
  repeat case_match; cbn; try reflexivity.

(** ** Classes of events and invariants *)

(** An event that leaves both dimensions unhandled. *)
Definition keeps_unhandled (ev : event) : Prop :=
  match ev with
  | DidUpdate p _ => Props.handleWidth p = false /\ Props.handleHeight p = false
  | _ => True
  end.

(** What holds of an instance that never handled a dimension. *)
Definition never_handled (w : world) : Prop :=
  enabled w = false /\ schedulers w = [] /\
  state w = Size Undefined Undefined /\ updates w = [].

(** A size equal to the state of [w] in every handled dimension. *)
Definition equals_state (w : world) (s : size) : Prop :=
  (Props.handleWidth (props w) = true -> width s = width (state w)) /\
  (Props.handleHeight (props w) = true -> height s = height (state w)).

(** An event that delivers nothing but the size already in the state of
    [w]: notifications and callback batches carrying that size, timers and
    frames. *)
Definition repeats_state (w : world) (ev : event) : Prop :=
  match ev with
  | Resized rs _ => Forall (fun r => equals_state w r.2) rs
  | Callback es _ => Forall (fun e => equals_state w (entry_size e)) es
  | TimerExpired _ | AnimationFrame => True
  | DidUpdate _ _ | WillUnmount => False
  end.

(** [w] is [w0] as far as notifications go, with nothing on its way. *)
Definition settled (w0 w : world) : Prop :=
  props w = props w0 /\ state w = state w0 /\ log w = log w0 /\
  only_pending (schedulers w) None /\
  (forall es, timer w = Some es -> Forall (fun e => equals_state w0 (entry_size e)) es).

(** The fields a run of the handler cannot change. *)
Definition same_wiring (w w' : world) : Prop :=
  props w' = props w /\ state w' = state w /\ timer w' = timer w /\
  resizeHandler w' = resizeHandler w /\ callback w' = callback w /\
  observableElement w' = observableElement w /\ observed w' = observed w /\
  isSSR w' = isSSR w /\ updates w' = updates w.

(** An event of the mounted life of an instance. *)
Definition mounted_event (ev : event) : Prop :=
  match ev with WillUnmount => False | _ => True end.

(** What holds while the instance is mounted: wrappers are coherent, the
    handler field still aliases the observer's callback, only a wrapped
    handler has a timer, and the tracked element is registered. *)
Definition live (w : world) : Prop :=
  coherent w /\
  resizeHandler w = Some (callback w) /\
  (callback w = plainHandler -> timer w = None) /\
  (forall n, observableElement w = Some n -> n ∈ observed w).



(** ** The claims that are refuted below, as stated *)

(** The observer has at most one registered target. *)
Definition single_registration (w : world) : Prop :=
  (length (elements (observed w)) <= 1)%nat.

(** The claim that a batch leaves out exactly its first qualifying size
    change. *)
Definition suppresses_first_qualifying (w : world) (es : list entry) : Prop :=
  exists w', createResizeHandler w es = Some w' /\
    log w' = log w ++ (Updater <$> tail (filter (qualifies w) (entry_size <$> es))).

(** While the mount flag is up, or outside a browser, nothing has been
    committed and nothing is pending. *)
Definition untouched (w : world) : Prop :=
  skipOnMount w = true \/ isSSR w = true ->
  state w = Size Undefined Undefined /\ only_pending (schedulers w) None.

(** [cloneElement] on an element: the props with width and height set. *)
Definition with_size (el : relement) (s : size) : relement :=
  RElement (el_type el)
    (<["height" := attr_of_dim (height s)]> (<["width" := attr_of_dim (width s)]> (el_props el))).

(** The claim that every entry of a children array other than null is
    cloned. *)
Definition clones_each_non_null (w : world) : Prop :=
  forall l, Props.children (props w) = JArray l -> getRenderType w = childArray ->
  exists out, render w = Some (JArray out) /\
    forall i el, l !! i = Some el -> el <> JNull -> out !! i = cloneElement el (state w).

(** ** Sample inputs *)

(** A document in which [#box] is node 7, the component rendered node 3,
    and the parent of a node is its successor. *)
Definition sample_dom : dom :=
  {| document_querySelector := fun q => if String.eqb q "#box" then Some 7%positive else None;
     findDOMNode := Some 3%positive;
     parentElement := fun n => Some (Pos.succ n) |}.

(** The default props with [targetDomEl] set and an [onResize] callback. *)
Definition sample_props (target : node) : Props.t :=
  {| Props.handleWidth := true; Props.handleHeight := true; Props.skipOnMount := false;
     Props.refreshRate := 1000; Props.refreshMode := None; Props.refreshOptions := None;
     Props.querySelector := None; Props.targetDomEl := JDomElement target;
     Props.targetRef := None; Props.onResize := JFunction (fun _ => JUndefined);
     Props.render := JUndefined; Props.children := JNull; Props.nodeType := "div" |}.

Definition with_skipOnMount (p : Props.t) : Props.t :=
  Props.Make (Props.handleWidth p) (Props.handleHeight p) true (Props.refreshRate p)
    (Props.refreshMode p) (Props.refreshOptions p) (Props.querySelector p)
    (Props.targetDomEl p) (Props.targetRef p) (Props.onResize p) (Props.render p)
    (Props.children p) (Props.nodeType p).

Definition with_handles (hw hh : bool) (p : Props.t) : Props.t :=
  Props.Make hw hh (Props.skipOnMount p) (Props.refreshRate p)
    (Props.refreshMode p) (Props.refreshOptions p) (Props.querySelector p)
    (Props.targetDomEl p) (Props.targetRef p) (Props.onResize p) (Props.render p)
    (Props.children p) (Props.nodeType p).

Definition with_refreshMode (m : string) (p : Props.t) : Props.t :=
  Props.Make (Props.handleWidth p) (Props.handleHeight p) (Props.skipOnMount p)
    (Props.refreshRate p) (Some m) (Props.refreshOptions p) (Props.querySelector p)
    (Props.targetDomEl p) (Props.targetRef p) (Props.onResize p) (Props.render p)
    (Props.children p) (Props.nodeType p).

Definition with_children (c : jsval) (p : Props.t) : Props.t :=
  Props.Make (Props.handleWidth p) (Props.handleHeight p) (Props.skipOnMount p)
    (Props.refreshRate p) (Props.refreshMode p) (Props.refreshOptions p)
    (Props.querySelector p) (Props.targetDomEl p) (Props.targetRef p) (Props.onResize p)
    (Props.render p) c (Props.nodeType p).

(** Selector, element and ref all supplied. *)
Definition all_targets : Props.t :=
  Props.Make true true false 1000 None None (Some "#box"%string) (JDomElement 1%positive)
    (Some (JDomElement 2%positive)) JNull JUndefined JNull "div".

Definition px (w h : Z) : size := Size (Px w) (Px h).

(** The world a run ends in. *)
Definition world_of (o : option world) : world :=
  default (constructor false Props.defaultProps) o.

(** Mounted on node 1, resized to 100x50, one frame later. *)
Definition committed_world : world :=
  Eval vm_compute in
    world_of (run (mount false (sample_props 1%positive) sample_dom)
                [Resized [(1%positive, px 100 50)] false; AnimationFrame]).

(** Mounted on node 1 with a debounced handler: a flush is pending and the
    wrapper's timer is armed. *)
Definition busy_world : world :=
  Eval vm_compute in
    world_of (run (mount false (with_refreshMode "debounce" (sample_props 1%positive)) sample_dom)
                [Resized [(1%positive, px 100 50)] true;
                 Resized [(1%positive, px 120 50)] false]).

(** Mounted on node 1 with [skipOnMount]. *)
Definition skipping_world : world :=
  Eval vm_compute in mount false (with_skipOnMount (sample_props 1%positive)) sample_dom.

(** ** Vocabulary of the further properties *)

(** Any event but a painted frame. *)
Definition not_a_frame (ev : event) : Prop :=
  match ev with AnimationFrame => False | _ => True end.

(** Outside a browser: nothing pending, nothing committed, nothing
    registered or tracked, and no call left the component but
    [disconnect]. *)
Definition inert (w : world) : Prop :=
  isSSR w = true /\
  only_pending (schedulers w) None /\
  state w = Size Undefined Undefined /\
  observed w = ∅ /\
  observableElement w = None /\
  Forall (fun e => e = Disconnect) (log w).

(** The [targetRef] prop is absent or its [current] is falsy. *)
Definition ref_cleared (p : Props.t) : Prop :=
  match Props.targetRef p with
  | Some current => truthy current = false
  | None => True
  end.

(** The sizes an event delivers to the instance. *)
Definition event_sizes (ev : event) : list size :=
  match ev with
  | Resized rs _ => snd <$> rs
  | Callback es _ => entry_size <$> es
  | DidUpdate _ _ | TimerExpired _ | AnimationFrame | WillUnmount => []
  end.

Definition delivered (evs : list event) : list size := concat (event_sizes <$> evs).

(** The size an outgoing call carries. *)
Definition effect_size (e : effect) : option size :=
  match e with
  | Updater s | SetState s => Some s
  | OnResize w h => Some (Size w h)
  | Observe _ | Disconnect => None
  end.

(** Every size held anywhere in [w] (stored wrapper arguments, entries
    waiting in the rate-limiting wrapper, the trace, the state) is one of
    [sizes]. *)
Definition traced (sizes : list size) (w : world) : Prop :=
  (forall a r s, schedulers w !! a = Some r -> lastArgs r = Some s -> s ∈ sizes) /\
  (forall es e, timer w = Some es -> e ∈ es -> entry_size e ∈ sizes) /\
  (forall e s, e ∈ log w -> effect_size e = Some s -> s ∈ sizes) /\
  (state w = Size Undefined Undefined \/ state w ∈ sizes).

(** Mounted on node 1 with only the width handled, resized to 100x50, one
    frame later. *)
Definition width_only_world : world :=
  Eval vm_compute in
    world_of (run (mount false (with_handles true false (sample_props 1%positive)) sample_dom)
                [Resized [(1%positive, px 100 50)] false; AnimationFrame]).

(** * Properties *)

(** ** The handler *)

Lemma destructure_entry (e : entry) :
  destructure (or_empty_object (entry_and_contentRect e)) = Some (entry_size e).
Proof. by destruct e as [| |n [| |r]]. Qed.

Lemma wrapperFn_twice (s s' : size) (a : nat) (l : list rafSchd) :
  alter (wrapperFn s') a (alter (wrapperFn s) a l) = alter (wrapperFn s') a l.
Proof. rewrite list_alter_alter_eq. by apply list_alter_ext. Qed.

Lemma forEach_body_eq (wc hc : dim) (hw hh : bool) (a : nat) (w : world) (e : entry) :
  forEach_body wc hc hw hh a w e =
  Some (set_skipOnMount false
          (if negb (skipOnMount w) && isSizeChanged hw hh (Size wc hc) (entry_size e)
              && negb (isSSR w)
           then call_updater a (entry_size e) w else w)).
Proof. unfold forEach_body. by rewrite destructure_entry. Qed.

Lemma forEach_spec (wc hc : dim) (hw hh : bool) (a : nat) (es : list entry) :
  forall w : world,
    forEach (forEach_body wc hc hw hh a) w es =
    Some (batch_result a
            (filter (fun s => isSizeChanged hw hh (Size wc hc) s && negb (isSSR w))
                    (entry_size <$> (if skipOnMount w then tail es else es)))
            (match es with [] => skipOnMount w | _ => false end) w).
Proof.
  induction es as [|e es IH]; intros w.
  - cbn. destruct w as [? ? sk ? ? ? ? ? ? ? ? ? ? lg]; destruct sk;
      unfold batch_result; cbn; by rewrite app_nil_r.
  - cbn [forEach]. rewrite forEach_body_eq. cbn [mbind option_bind].
    rewrite IH. f_equal.
    assert (Hm : match es with [] => false | _ :: _ => false end = false) by (by destruct es).
    destruct (skipOnMount w) eqn:Hsk; cbn [negb andb tail].
    + unfold batch_result; cbn. by rewrite Hm.
    + rewrite fmap_cons, filter_cons.
      destruct (isSizeChanged hw hh (Size wc hc) (entry_size e) && negb (isSSR w)) eqn:Hq.
      * rewrite decide_True by done.
        unfold batch_result; cbn. rewrite Hm, last_cons, <- app_assoc. cbn.
        destruct (last _); [by rewrite wrapperFn_twice | done].
      * rewrite decide_False by (exact id).
        unfold batch_result; cbn. by rewrite Hm.
Qed.

Lemma createResizeHandler_disabled (w : world) (es : list entry) :
  enabled w = false -> createResizeHandler w es = Some w.
Proof.
  unfold enabled, createResizeHandler. intros H.
  apply orb_false_elim in H as [-> ->]. reflexivity.
Qed.

Lemma createResizeHandler_enabled (w : world) (es : list entry) :
  enabled w = true ->
  createResizeHandler w es =
  Some (batch_result (length (schedulers w)) (forwarded w es)
          (match es with [] => skipOnMount w | _ => false end) (createUpdater w).1).
Proof.
  unfold enabled, createResizeHandler. intros H.
  replace (negb (Props.handleWidth (props w)) && negb (Props.handleHeight (props w)))
    with false by (by destruct (Props.handleWidth (props w)), (Props.handleHeight (props w))).
  unfold createUpdater. rewrite forEach_spec. unfold rafClean.
  destruct (raf w); cbn; [rewrite length_alter|]; reflexivity.
Qed.

(** The handler never raises, whatever the entries are. *)
Lemma createResizeHandler_total (w : world) (es : list entry) :
  is_Some (createResizeHandler w es).
Proof.
  destruct (enabled w) eqn:H.
  - rewrite createResizeHandler_enabled by done. eauto.
  - rewrite createResizeHandler_disabled by done. eauto.
Qed.

(** ** Frames *)

Lemma only_pending_snoc (l : list rafSchd) (o : option nat) :
  only_pending l o -> only_pending (l ++ [RafSchd None false]) o.
Proof.
  intros H a r Hl Hf. destruct (decide (a < length l)%nat) as [Hlt|Hge].
  - rewrite lookup_app_l in Hl by done. eauto.
  - rewrite lookup_app_r in Hl by lia.
    destruct (a - length l)%nat as [|k]; cbn in Hl; [|done].
    injection Hl as <-. done.
Qed.

Lemma only_pending_cancel (l : list rafSchd) (a : nat) :
  only_pending l (Some a) -> only_pending (alter wrapperFn_cancel a l) None.
Proof.
  intros H a' r Hl Hf. destruct (decide (a = a')) as [<-|Hne].
  - rewrite list_lookup_alter_eq in Hl. destruct (l !! a); cbn in Hl; [|done].
    injection Hl as <-. done.
  - rewrite list_lookup_alter_ne in Hl by done.
    destruct (H a' r Hl Hf) as [[=] _]. done.
Qed.

Lemma only_pending_call (l : list rafSchd) (a : nat) (s : size) :
  only_pending l None -> only_pending (alter (wrapperFn s) a l) (Some a).
Proof.
  intros H a' r Hl Hf. destruct (decide (a = a')) as [<-|Hne].
  - rewrite list_lookup_alter_eq in Hl. destruct (l !! a); cbn in Hl; [|done].
    injection Hl as <-. cbn. eauto.
  - rewrite list_lookup_alter_ne in Hl by done.
    destruct (H a' r Hl Hf) as [[=] _].
Qed.

Lemma only_pending_weaken (l : list rafSchd) (o : option nat) :
  only_pending l None -> only_pending l o.
Proof. intros H a r Hl Hf. destruct (H a r Hl Hf) as [[=] _]. Qed.

Lemma rafClean_idle (w : world) :
  coherent w -> only_pending (schedulers (rafClean w)) None.
Proof.
  unfold coherent, rafClean. intros H. destruct (raf w) as [a|]; cbn; [|done].
  by apply only_pending_cancel.
Qed.

Lemma run_frames_idle (addresses : list nat) (w : world) :
  (forall a r, a ∈ addresses -> schedulers w !! a = Some r -> frameId r = false) ->
  run_frames w addresses = Some w.
Proof.
  induction addresses as [|a addresses IH]; intros H; [done|].
  cbn. unfold run_frame.
  destruct (schedulers w !! a) as [r|] eqn:Hl; cbn.
  - rewrite (H a r) by (done || apply list_elem_of_here). cbn.
    apply IH. intros a' r' Hin Hl'. apply (H a' r'); [by apply list_elem_of_further | done].
  - apply IH. intros a' r' Hin Hl'. apply (H a' r'); [by apply list_elem_of_further | done].
Qed.

Lemma run_frames_app (l1 l2 : list nat) (w : world) :
  run_frames w (l1 ++ l2) = w' ← run_frames w l1; run_frames w' l2.
Proof.
  revert w. induction l1 as [|a l1 IH]; intros w; cbn; [done|].
  destruct (run_frame w a); cbn; [apply IH | done].
Qed.

Lemma animation_frame_quiet (w : world) :
  only_pending (schedulers w) None -> animation_frame w = Some w.
Proof.
  intros H. apply run_frames_idle. intros a r _ Hl.
  destruct (frameId r) eqn:Hf; [|done]. destruct (H a r Hl Hf) as [[=] _].
Qed.

Lemma flush_schedulers (s : size) (w : world) : schedulers (flush s w) = schedulers w.
Proof. unfold flush. by destruct (isFunction _). Qed.

Lemma flush_raf (s : size) (w : world) : raf (flush s w) = raf w.
Proof. unfold flush. by destruct (isFunction _). Qed.

Lemma flush_log (s : size) (w : world) :
  log (flush s w) = log w ++ onResize_call w s ++ [SetState s].
Proof.
  unfold flush, onResize_call. destruct (isFunction _); cbn; [|done].
  by rewrite <- app_assoc.
Qed.

Lemma flush_state (s : size) (w : world) : state (flush s w) = s.
Proof. reflexivity. Qed.

Lemma animation_frame_spec (w : world) :
  coherent w ->
  animation_frame w =
  Some (match pending_flush w with
        | Some s => flush s (consume_frame w)
        | None => w
        end).
Proof.
  unfold coherent, pending_flush, consume_frame. intros H.
  destruct (raf w) as [a|] eqn:Hraf; cbn; [|by apply animation_frame_quiet].
  destruct (schedulers w !! a) as [r|] eqn:Hl; cbn.
  2:{ apply animation_frame_quiet. intros a' r' Hl' Hf'.
      destruct (H a' r' Hl' Hf') as [[= <-] _]. congruence. }
  destruct (frameId r) eqn:Hf.
  2:{ replace (match lastArgs r with Some _ | _ => w end) with w by (by destruct (lastArgs r)).
      apply animation_frame_quiet. intros a' r' Hl' Hf'.
      destruct (H a' r' Hl' Hf') as [[= <-] _]. congruence. }
  destruct (H a r Hl Hf) as [_ [s Hs]]. rewrite Hs.
  unfold animation_frame.
  pose proof (lookup_lt_Some _ _ _ Hl) as Hlt.
  replace (length (schedulers w)) with (a + S (length (schedulers w) - S a))%nat by lia.
  rewrite seq_app, run_frames_app. cbn [seq].
  rewrite run_frames_idle; cbn.
  2:{ intros a' r' Hin Hl'. destruct (frameId r') eqn:Hf'; [|done].
      destruct (H a' r' Hl' Hf') as [[= <-] _].
      apply elem_of_seq in Hin. lia. }
  unfold run_frame at 1. rewrite Hl, Hf, Hs. cbn.
  apply run_frames_idle. intros a' r' Hin Hl'. rewrite flush_schedulers in Hl'. cbn in Hl'.
  destruct (frameId r') eqn:Hf'; [|done].
  destruct (only_pending_cancel _ _ H a' r' Hl' Hf') as [[=] _].
Qed.

(** ** Coherence is kept by every event *)

Lemma attachObserver_schedulers (d : dom) (w : world) :
  schedulers (attachObserver d w) = schedulers w.
Proof. attach_cases. Qed.

Lemma attachObserver_raf (d : dom) (w : world) : raf (attachObserver d w) = raf w.
Proof. attach_cases. Qed.

Lemma attachObserver_timer (d : dom) (w : world) : timer (attachObserver d w) = timer w.
Proof. attach_cases. Qed.

Lemma attachObserver_state (d : dom) (w : world) : state (attachObserver d w) = state w.
Proof. attach_cases. Qed.

Lemma attachObserver_props (d : dom) (w : world) : props (attachObserver d w) = props w.
Proof. attach_cases. Qed.

Lemma attachObserver_skipOnMount (d : dom) (w : world) :
  skipOnMount (attachObserver d w) = skipOnMount w.
Proof. attach_cases. Qed.

Lemma attachObserver_updates (d : dom) (w : world) :
  updates (attachObserver d w) = updates w.
Proof. attach_cases; unfold updates; cbn; rewrite filter_app; cbn; apply app_nil_r. Qed.

Lemma rafClean_length (w : world) :
  length (schedulers (rafClean w)) = length (schedulers w).
Proof. unfold rafClean. destruct (raf w); cbn; [apply length_alter | done]. Qed.

Lemma createResizeHandler_coherent (w w' : world) (es : list entry) :
  coherent w -> createResizeHandler w es = Some w' -> coherent w'.
Proof.
  intros Hc. destruct (enabled w) eqn:He.
  - rewrite createResizeHandler_enabled by done. intros [= <-].
    unfold coherent, batch_result. cbn. rewrite <- rafClean_length.
    pose proof (only_pending_snoc _ _ (rafClean_idle w Hc)) as Hidle.
    destruct (last _); [by apply only_pending_call | by apply only_pending_weaken].
  - rewrite createResizeHandler_disabled by done. by intros [= <-].
Qed.

Lemma invoke_callback_coherent (w w' : world) (es : list entry) (lead : bool) :
  coherent w -> invoke_callback es lead w = Some w' -> coherent w'.
Proof.
  unfold invoke_callback. intros Hc.
  destruct (callback w); [by apply createResizeHandler_coherent|].
  destruct lead; [by apply createResizeHandler_coherent | by intros [= <-]].
Qed.

Lemma invoke_callback_total (w : world) (es : list entry) (lead : bool) :
  is_Some (invoke_callback es lead w).
Proof.
  unfold invoke_callback.
  destruct (callback w); [apply createResizeHandler_total|].
  destruct lead; [apply createResizeHandler_total | eauto].
Qed.

Lemma componentWillUnmount_idle (w : world) :
  coherent w -> only_pending (schedulers (componentWillUnmount w)) None.
Proof.
  intros Hc. unfold componentWillUnmount, cancelHandler.
  assert (only_pending (schedulers (rafClean (disconnect w))) None) as H
    by (by apply rafClean_idle).
  destruct (resizeHandler (rafClean (disconnect w))) as [[|h]|]; exact H.
Qed.

Lemma componentWillUnmount_raf (w : world) : raf (componentWillUnmount w) = None.
Proof.
  destruct w as [? ? ? [a|] ? ? ? [[|h]|] ? ? ? ? ? ?]; reflexivity.
Qed.

Lemma step_coherent (w w' : world) (ev : event) :
  coherent w -> step w ev = Some w' -> coherent w'.
Proof.
  intros Hc. destruct ev as [p d|rs lead|es lead|trail| |]; cbn.
  - intros [= <-]. unfold coherent, componentDidUpdate.
    by rewrite attachObserver_schedulers, attachObserver_raf.
  - destruct (notifications w rs); [by intros [= <-] | by apply invoke_callback_coherent].
  - by apply invoke_callback_coherent.
  - unfold timer_expired. destruct (timer w); [|by intros [= <-]].
    destruct trail; [by apply createResizeHandler_coherent | by intros [= <-]].
  - rewrite animation_frame_spec by done. intros [= <-].
    unfold pending_flush, consume_frame.
    destruct (raf w) as [a|] eqn:Hraf; cbn; [|exact Hc].
    destruct (schedulers w !! a) as [r|]; cbn; [|exact Hc].
    destruct (frameId r); [|exact Hc]. destruct (lastArgs r); [|exact Hc].
    unfold coherent in *. rewrite flush_schedulers, flush_raf. cbn.
    rewrite Hraf in Hc. by apply only_pending_weaken, only_pending_cancel.
  - intros [= <-]. unfold coherent. rewrite componentWillUnmount_raf.
    by apply componentWillUnmount_idle.
Qed.

Lemma step_total (w : world) (ev : event) : coherent w -> is_Some (step w ev).
Proof.
  intros Hc. destruct ev as [p d|rs lead|es lead|trail| |]; cbn; eauto.
  - destruct (notifications w rs); [eauto | apply invoke_callback_total].
  - apply invoke_callback_total.
  - unfold timer_expired. destruct (timer w); [|eauto].
    destruct trail; [apply createResizeHandler_total | eauto].
  - rewrite animation_frame_spec by done. eauto.
Qed.

Lemma run_coherent (evs : list event) :
  forall w w', coherent w -> run w evs = Some w' -> coherent w'.
Proof.
  induction evs as [|ev evs IH]; intros w w' Hc; cbn; [by intros [= <-]|].
  destruct (step w ev) as [w1|] eqn:Hs; cbn; [|done].
  apply IH. by eapply step_coherent.
Qed.

Lemma run_total (evs : list event) :
  forall w, coherent w -> is_Some (run w evs).
Proof.
  induction evs as [|ev evs IH]; intros w Hc; cbn; [eauto|].
  destruct (step_total w ev Hc) as [w1 Hs]. rewrite Hs. cbn.
  apply IH. by eapply step_coherent.
Qed.

Lemma mount_coherent (ssr : bool) (p : Props.t) (d : dom) : coherent (mount ssr p d).
Proof.
  unfold coherent, mount, componentDidMount.
  rewrite attachObserver_schedulers, attachObserver_raf. cbn. intros a r Hl. done.
Qed.

(** ** Teardown *)

Lemma componentWillUnmount_state (w : world) : state (componentWillUnmount w) = state w.
Proof. destruct w as [? ? ? [a|] ? ? ? [[|h]|] ? ? ? ? ? ?]; reflexivity. Qed.

Lemma componentWillUnmount_props (w : world) : props (componentWillUnmount w) = props w.
Proof. destruct w as [? ? ? [a|] ? ? ? [[|h]|] ? ? ? ? ? ?]; reflexivity. Qed.

Lemma componentWillUnmount_updates (w : world) :
  updates (componentWillUnmount w) = updates w.
Proof.
  destruct w as [? ? ? [a|] ? ? ? [[|h]|] ? ? ? ? ? ?];
    unfold updates; cbn; rewrite filter_app; apply app_nil_r.
Qed.

Lemma componentWillUnmount_observed (w : world) : observed (componentWillUnmount w) = ∅.
Proof. destruct w as [? ? ? [a|] ? ? ? [[|h]|] ? ? ? ? ? ?]; reflexivity. Qed.

Lemma componentWillUnmount_schedulers (w : world) :
  schedulers (componentWillUnmount w) = schedulers (rafClean w).
Proof. destruct w as [? ? ? [a|] ? ? ? [[|h]|] ? ? ? ? ? ?]; reflexivity. Qed.

(** ** No handled dimension *)

Lemma invoke_callback_disabled (w : world) (es : list entry) (lead : bool) :
  enabled w = false ->
  invoke_callback es lead w = Some w \/
  invoke_callback es lead w = Some (set_timer (Some es) w) \/
  invoke_callback es lead w = Some (set_timer None w).
Proof.
  intros He. unfold invoke_callback. destruct (callback w).
  - left. by apply createResizeHandler_disabled.
  - destruct lead; [|by right; left].
    right; right. by apply createResizeHandler_disabled.
Qed.

Lemma step_never_handled (w : world) (ev : event) :
  never_handled w -> keeps_unhandled ev ->
  exists w', step w ev = Some w' /\ never_handled w'.
Proof.
  intros (He & Hs & Hst & Hu) Hev. destruct ev as [p d|rs lead|es lead|trail| |]; cbn.
  - eexists; split; [done|]. unfold never_handled, enabled, componentDidUpdate.
    rewrite attachObserver_props, attachObserver_schedulers, attachObserver_state,
      attachObserver_updates. cbn. destruct Hev as [-> ->]. done.
  - destruct (notifications w rs) as [|e es]; [by exists w|].
    destruct (invoke_callback_disabled w (e :: es) lead He) as [->|[->| ->]];
      eexists; (split; [done|]); done.
  - destruct (invoke_callback_disabled w es lead He) as [->|[->| ->]];
      eexists; (split; [done|]); done.
  - unfold timer_expired. destruct (timer w) as [es|]; [|by exists w].
    destruct trail; [|by eexists].
    rewrite createResizeHandler_disabled by done. by eexists.
  - unfold animation_frame. rewrite Hs. by exists w.
  - eexists; split; [done|]. unfold never_handled, enabled.
    rewrite componentWillUnmount_props, componentWillUnmount_schedulers,
      componentWillUnmount_state, componentWillUnmount_updates.
    repeat split; try done. unfold rafClean. destruct (raf w); cbn; by rewrite Hs.
Qed.

Lemma run_never_handled (evs : list event) :
  forall w, never_handled w -> Forall keeps_unhandled evs ->
  exists w', run w evs = Some w' /\ never_handled w'.
Proof.
  induction evs as [|ev evs IH]; intros w Hw Hevs; [by exists w|].
  apply Forall_cons in Hevs as [Hev Hevs].
  destruct (step_never_handled w ev Hw Hev) as (w1 & Hs & Hw1).
  cbn. rewrite Hs. cbn. by apply IH.
Qed.

(** C4: with [handleWidth] and [handleHeight] both false, from mount on and
    whatever is delivered (resize notifications, calls of the observer
    callback, timers, frames, re-renders that keep both false, teardown),
    every event is processed, the width/height state stays undefined and
    neither [setState] nor [onResize] is ever called. *)
Theorem unhandled_dimensions_never_update
    (ssr : bool) (p : Props.t) (d : dom) (evs : list event) :
  Props.handleWidth p = false ->
  Props.handleHeight p = false ->
  Forall keeps_unhandled evs ->
  exists w, run (mount ssr p d) evs = Some w /\
            state w = Size Undefined Undefined /\ updates w = [].
Proof.
  intros Hw Hh Hevs.
  destruct (run_never_handled evs (mount ssr p d)) as (w & Hrun & _ & _ & Hst & Hu);
    [|done|by exists w].
  unfold never_handled, enabled, mount, componentDidMount.
  rewrite attachObserver_props, attachObserver_schedulers, attachObserver_state,
    attachObserver_updates. cbn. by rewrite Hw, Hh.
Qed.

(** ** Entries that repeat the current size *)

Lemma equals_state_unchanged (w0 w : world) (s : size) :
  props w = props w0 -> state w = state w0 -> equals_state w0 s -> qualifies w s = false.
Proof.
  intros Hp Hs [Hw Hh]. unfold qualifies, isSizeChanged, strict_ne. rewrite Hp, Hs.
  destruct (Props.handleWidth (props w0)), (Props.handleHeight (props w0)); cbn;
    try rewrite Hw by done; try rewrite Hh by done;
    repeat (rewrite bool_decide_eq_false_2 by (intros Hne; by apply Hne)); done.
Qed.

Lemma forwarded_nil (w : world) (es : list entry) :
  Forall (fun e => qualifies w (entry_size e) = false) es -> forwarded w es = [].
Proof.
  intros H. unfold forwarded.
  assert (Forall (fun e => qualifies w (entry_size e) = false)
            (if skipOnMount w then tail es else es)) as H'
    by (destruct (skipOnMount w); [by apply Forall_tail | done]).
  induction H' as [|e l He _ IH]; [done|].
  rewrite fmap_cons, filter_cons, decide_False; [exact IH | rewrite He; exact id].
Qed.

Lemma createResizeHandler_settled (w0 w : world) (es : list entry) :
  settled w0 w -> Forall (fun e => equals_state w0 (entry_size e)) es ->
  exists w', createResizeHandler w es = Some w' /\ settled w0 w' /\ timer w' = timer w.
Proof.
  intros (Hp & Hs & Hl & Hi & Ht) Hes. destruct (enabled w) eqn:He.
  - rewrite createResizeHandler_enabled by done. eexists; split; [done|].
    rewrite forwarded_nil.
    2:{ eapply Forall_impl; [exact Hes|]. intros e. by apply equals_state_unchanged. }
    unfold settled, batch_result, createUpdater. cbn.
    assert (only_pending (schedulers (rafClean w)) None) as Hi'
      by (by apply rafClean_idle, only_pending_weaken).
    unfold rafClean in *. destruct (raf w); cbn in *;
      (split; [|done]; refine (conj _ (conj _ (conj _ (conj _ _))));
       [done | done | by rewrite app_nil_r | by apply only_pending_snoc | done]).
  - rewrite createResizeHandler_disabled by done. eexists; split; [done|]. done.
Qed.

Lemma settled_set_timer (w0 w : world) (t : option (list entry)) :
  settled w0 w ->
  (forall es, t = Some es -> Forall (fun e => equals_state w0 (entry_size e)) es) ->
  settled w0 (set_timer t w).
Proof.
  intros (Hp & Hs & Hl & Hi & Ht) H.
  refine (conj _ (conj _ (conj _ (conj _ _)))); done.
Qed.

Lemma invoke_callback_settled (w0 w : world) (es : list entry) (lead : bool) :
  settled w0 w -> Forall (fun e => equals_state w0 (entry_size e)) es ->
  exists w', invoke_callback es lead w = Some w' /\ settled w0 w'.
Proof.
  intros Hw Hes. unfold invoke_callback. destruct (callback w).
  - destruct (createResizeHandler_settled w0 w es Hw Hes) as (w' & -> & Hw' & _). eauto.
  - destruct lead.
    + destruct (createResizeHandler_settled w0 (set_timer None w) es) as (w' & -> & Hw' & _);
        [by apply settled_set_timer | done | eauto].
    + eexists; split; [done|]. apply settled_set_timer; [done|]. by intros ? [= <-].
Qed.

Lemma Forall_notifications (P : size -> Prop) (w : world) (rs : list (node * size)) :
  Forall (fun r => P r.2) rs -> Forall (fun e => P (entry_size e)) (notifications w rs).
Proof.
  unfold notifications. induction 1 as [|r rs Hr _ IH]; [constructor|].
  rewrite filter_cons. destruct (decide _); [|done]. rewrite fmap_cons. by constructor.
Qed.

Lemma step_settled (w0 w : world) (ev : event) :
  settled w0 w -> repeats_state w0 ev -> exists w', step w ev = Some w' /\ settled w0 w'.
Proof.
  intros Hw Hev. destruct ev as [p d|rs lead|es lead|trail| |]; cbn in *; try done.
  - pose proof (Forall_notifications (equals_state w0) w rs Hev) as Hn.
    destruct (notifications w rs) as [|e es]; [by exists w|].
    by apply invoke_callback_settled.
  - by apply invoke_callback_settled.
  - unfold timer_expired. destruct (timer w) as [es|] eqn:Ht; [|by exists w].
    destruct trail.
    + destruct (createResizeHandler_settled w0 (set_timer None w) es) as (w' & -> & Hw' & _);
        [by apply settled_set_timer | | eauto].
      destruct Hw as (_ & _ & _ & _ & Hes). by apply Hes.
    + eexists; split; [done|]. by apply settled_set_timer.
  - rewrite animation_frame_quiet; [by exists w|]. by destruct Hw as (_ & _ & _ & ? & _).
Qed.

Lemma idle_only_pending (w : world) : idle w = true -> only_pending (schedulers w) None.
Proof.
  unfold idle. rewrite forallb_forall. intros H a r Hl Hf.
  specialize (H r). rewrite Hf in H. discriminate H.
  apply list_elem_of_In. by eapply list_elem_of_lookup_2.
Qed.

Lemma run_settled (w0 : world) (evs : list event) :
  forall w, settled w0 w -> Forall (repeats_state w0) evs ->
  exists w', run w evs = Some w' /\ settled w0 w'.
Proof.
  induction evs as [|ev evs IH]; intros w Hw Hevs; [by exists w|].
  apply Forall_cons in Hevs as [Hev Hevs].
  destruct (step_settled w0 w ev Hw Hev) as (w1 & Hs & Hw1).
  cbn. rewrite Hs. cbn. by apply IH.
Qed.

(** ** What the handler and a frame leave alone *)

Lemma updates_app_Updater (l : list effect) (fw : list size) :
  filter is_update (l ++ (Updater <$> fw)) = filter is_update l.
Proof.
  rewrite filter_app.
  replace (filter is_update (Updater <$> fw)) with (@nil effect); [apply app_nil_r|].
  induction fw as [|s fw IH]; [done|]. rewrite fmap_cons, filter_cons. cbn. exact IH.
Qed.

Lemma createResizeHandler_wiring (w w' : world) (es : list entry) :
  createResizeHandler w es = Some w' -> same_wiring w w'.
Proof.
  destruct (enabled w) eqn:He.
  - rewrite createResizeHandler_enabled by done. intros [= <-].
    unfold same_wiring, updates, batch_result, createUpdater, rafClean.
    destruct (raf w); cbn; rewrite updates_app_Updater; done.
  - rewrite createResizeHandler_disabled by done. by intros [= <-].
Qed.

Lemma notifications_disconnected (w : world) (rs : list (node * size)) :
  observed w = ∅ -> notifications w rs = [].
Proof.
  intros H. unfold notifications. rewrite H.
  induction rs as [|r rs IH]; [done|].
  rewrite filter_cons, decide_False; [exact IH | set_solver].
Qed.

(** ** The mounted life of an instance *)

Lemma live_handler (w w' : world) (es : list entry) :
  live w -> createResizeHandler w es = Some w' -> live w'.
Proof.
  intros (Hc & Hr & Ht & Ho) H.
  pose proof (createResizeHandler_wiring _ _ _ H) as (_ & _ & Et & Er & Ec & Eo & Eob & _).
  refine (conj _ (conj _ (conj _ _))).
  - by eapply createResizeHandler_coherent.
  - by rewrite Er, Ec.
  - by rewrite Ec, Et.
  - by rewrite Eo, Eob.
Qed.

Lemma live_invoke_callback (w w' : world) (es : list entry) (lead : bool) :
  live w -> invoke_callback es lead w = Some w' -> live w'.
Proof.
  intros Hw. unfold invoke_callback. destruct (callback w) eqn:Hcb.
  - by apply live_handler.
  - assert (forall t, live (set_timer t w)) as Hset.
    { intros t. destruct Hw as (Hc & Hr & Ht & Ho).
      refine (conj _ (conj _ (conj _ _))); cbn; try done. by rewrite Hcb. }
    destruct lead; [by apply live_handler | intros [= <-]; apply Hset].
Qed.

Lemma attachObserver_wiring (d : dom) (w : world) :
  resizeHandler (attachObserver d w) = resizeHandler w /\
  callback (attachObserver d w) = callback w /\
  isSSR (attachObserver d w) = isSSR w /\
  unmounted (attachObserver d w) = unmounted w.
Proof. attach_cases; done. Qed.

Lemma attachObserver_tracked (d : dom) (w : world) :
  (forall n, observableElement w = Some n -> n ∈ observed w) ->
  forall n, observableElement (attachObserver d w) = Some n -> n ∈ observed (attachObserver d w).
Proof.
  intros H n. unfold attachObserver, observe.
  set (w1 := copy_targetRef w).
  assert (observableElement w1 = observableElement w /\ observed w1 = observed w) as [E1 E2]
    by (unfold w1, copy_targetRef; repeat case_match; done).
  destruct (getElement d w1) as [element|];
    [|intros Hn; rewrite E2; apply H; by rewrite <- E1].
  case_bool_decide; [intros Hn; rewrite E2; apply H; by rewrite <- E1|].
  cbn. intros Hn. injection Hn as <-. apply elem_of_union. left. by apply elem_of_singleton.
Qed.

Lemma live_set_props (w : world) (p : Props.t) : live w -> live (set_props p w).
Proof. intros (Hc & Hr & Ht & Ho). by refine (conj _ (conj _ (conj _ _))). Qed.

Lemma live_attachObserver (d : dom) (w : world) : live w -> live (attachObserver d w).
Proof.
  intros (Hc & Hr & Ht & Ho).
  destruct (attachObserver_wiring d w) as (Er & Ec & _).
  refine (conj _ (conj _ (conj _ _))).
  - unfold coherent. by rewrite attachObserver_schedulers, attachObserver_raf.
  - by rewrite Er, Ec.
  - by rewrite Ec, attachObserver_timer.
  - by apply attachObserver_tracked.
Qed.

Lemma live_flush (s : size) (w : world) : live w -> live (flush s (consume_frame w)).
Proof.
  intros (Hc & Hr & Ht & Ho). refine (conj _ (conj _ (conj _ _))).
  - unfold coherent in *. rewrite flush_schedulers, flush_raf. unfold consume_frame.
    destruct (raf w) as [a|] eqn:Hraf; cbn; [rewrite Hraf | by rewrite Hraf].
    by apply only_pending_weaken, only_pending_cancel.
  - unfold flush, consume_frame. destruct (raf w), (isFunction _); done.
  - unfold flush, consume_frame. destruct (raf w), (isFunction _); done.
  - unfold flush, consume_frame. destruct (raf w), (isFunction _); done.
Qed.

Lemma step_live (w w' : world) (ev : event) :
  live w -> mounted_event ev -> step w ev = Some w' -> live w'.
Proof.
  intros Hw Hev. destruct ev as [p d|rs lead|es lead|trail| |]; cbn in *; try done.
  - intros [= <-]. by apply live_attachObserver, live_set_props.
  - destruct (notifications w rs); [by intros [= <-] | by apply live_invoke_callback].
  - by apply live_invoke_callback.
  - unfold timer_expired.
    assert (live (set_timer None w)) as Hset.
    { destruct Hw as (Hc & Hr & Ht & Ho). by refine (conj _ (conj _ (conj _ _))). }
    destruct (timer w); [|by intros [= <-]].
    destruct trail; [by apply live_handler | by intros [= <-]].
  - rewrite animation_frame_spec by apply Hw. intros [= <-].
    destruct (pending_flush w); [by apply live_flush | done].
Qed.

Lemma mount_live (ssr : bool) (p : Props.t) (d : dom) : live (mount ssr p d).
Proof.
  apply live_attachObserver. by refine (conj _ (conj _ (conj _ _))).
Qed.

Lemma run_live (evs : list event) :
  forall w w', live w -> Forall mounted_event evs -> run w evs = Some w' -> live w'.
Proof.
  induction evs as [|ev evs IH]; intros w w' Hw Hevs; cbn; [by intros [= <-]|].
  apply Forall_cons in Hevs as [Hev Hevs].
  destruct (step w ev) as [w1|] eqn:Hs; cbn; [|done].
  apply IH; [by eapply step_live | done].
Qed.

(** ** After teardown *)






(** C1, as amended: while the instance is mounted the element it tracks
    is registered; a lifecycle call never removes a registration, and the
    element it resolves becomes the tracked one and is registered next to
    the targets registered before; teardown removes every registration. *)
Theorem tracked_element_is_registered
    (ssr : bool) (p : Props.t) (d : dom) (evs : list event) (w : world)
    (p' : Props.t) (d' : dom) :
  Forall mounted_event evs ->
  run (mount ssr p d) evs = Some w ->
  (forall n, observableElement w = Some n -> n ∈ observed w) /\
  (forall n, getElement d' (copy_targetRef (set_props p' w)) = Some n ->
     observableElement (componentDidUpdate d' (set_props p' w)) = Some n /\
     observed (componentDidUpdate d' (set_props p' w)) = {[n]} ∪ observed w) /\
  observed w ⊆ observed (componentDidUpdate d' (set_props p' w)) /\
  observed (componentWillUnmount w) = ∅.
Proof.
  intros Hevs Hrun.
  assert (live w) as (_ & _ & _ & Ho) by (eapply run_live; [apply mount_live | done | done]).
  assert (observableElement (copy_targetRef (set_props p' w)) = observableElement w /\
          observed (copy_targetRef (set_props p' w)) = observed w) as [E1 E2]
    by (unfold copy_targetRef; repeat case_match; done).
  split; [exact Ho|]. split; [|split; [|apply componentWillUnmount_observed]].
  - intros n Hn. unfold componentDidUpdate, attachObserver. rewrite Hn.
    case_bool_decide as Hd.
    + rewrite E1 in Hd. rewrite E1, E2. split; [done|].
      symmetry. apply subseteq_union_1_L, singleton_subseteq_l, Ho, Hd.
    + cbn. by rewrite E2.
  - unfold componentDidUpdate, attachObserver.
    destruct (getElement _ _) as [n|]; [|by rewrite E2].
    case_bool_decide; [by rewrite E2|]. cbn. rewrite E2. apply union_subseteq_r.
Qed.

(** ** A batch and the frame after it *)

Lemma createResizeHandler_log (w w' : world) (es : list entry) :
  createResizeHandler w es = Some w' -> log w' = log w ++ (Updater <$> forwarded w es).
Proof.
  destruct (enabled w) eqn:He.
  - rewrite createResizeHandler_enabled by done. intros [= <-].
    unfold batch_result, createUpdater, rafClean. by destruct (raf w).
  - rewrite createResizeHandler_disabled by done. intros [= <-].
    rewrite forwarded_nil; [by rewrite app_nil_r|].
    apply Forall_forall. intros e _. unfold qualifies, isSizeChanged.
    unfold enabled in He. apply orb_false_elim in He as [-> ->]. done.
Qed.

Lemma createResizeHandler_skipOnMount (w w' : world) (es : list entry) :
  createResizeHandler w es = Some w' ->
  skipOnMount w' = (if enabled w then match es with [] => skipOnMount w | _ => false end
                    else skipOnMount w).
Proof.
  destruct (enabled w) eqn:He.
  - rewrite createResizeHandler_enabled by done. by intros [= <-].
  - rewrite createResizeHandler_disabled by done. by intros [= <-].
Qed.

Lemma pending_flush_batch (w w' : world) (es : list entry) :
  enabled w = true -> createResizeHandler w es = Some w' ->
  pending_flush w' = last (forwarded w es).
Proof.
  intros He. rewrite createResizeHandler_enabled by done. intros [= <-].
  unfold pending_flush, batch_result, createUpdater. cbn. rewrite rafClean_length.
  destruct (last (forwarded w es)) as [s|].
  - rewrite list_lookup_alter_eq, lookup_app_r by (by rewrite rafClean_length).
    by rewrite rafClean_length, Nat.sub_diag.
  - rewrite lookup_app_r by (by rewrite rafClean_length).
    by rewrite rafClean_length, Nat.sub_diag.
Qed.

Lemma frame_commits_pending (w : world) :
  coherent w ->
  exists w', animation_frame w = Some w' /\
    match pending_flush w with
    | Some s => state w' = s /\ log w' = log w ++ onResize_call w s ++ [SetState s]
    | None => w' = w
    end.
Proof.
  intros Hc. rewrite animation_frame_spec by done. eexists; split; [done|].
  destruct (pending_flush w) as [s|]; [|done].
  rewrite flush_log. split; [done|].
  unfold consume_frame, onResize_call. by destruct (raf w).
Qed.

(** C8: the entries of a batch are taken in delivery order, each
    qualifying one is passed to the updater, and the frame that follows
    commits once, with the last size passed: [onResize] (when it is a
    function) and then [setState] are called on that size and on no
    earlier one.  In any reachable world a frame commits at most the one
    size that is pending. *)
Theorem batch_commits_last_size
    (ssr : bool) (p : Props.t) (d : dom) (evs : list event) (w : world) (es : list entry) :
  run (mount ssr p d) evs = Some w ->
  enabled w = true ->
  (exists w', animation_frame w = Some w' /\
     match pending_flush w with
     | Some s => state w' = s /\ log w' = log w ++ onResize_call w s ++ [SetState s]
     | None => w' = w
     end) /\
  exists w1 w2,
    createResizeHandler w es = Some w1 /\
    log w1 = log w ++ (Updater <$> forwarded w es) /\
    state w1 = state w /\
    animation_frame w1 = Some w2 /\
    match last (forwarded w es) with
    | Some s => state w2 = s /\ log w2 = log w1 ++ onResize_call w s ++ [SetState s]
    | None => w2 = w1
    end.
Proof.
  intros Hrun He.
  assert (coherent w) as Hc by (eapply run_coherent; [apply mount_coherent | done]).
  split; [by apply frame_commits_pending|].
  destruct (createResizeHandler_total w es) as [w1 H1].
  pose proof (createResizeHandler_coherent _ _ _ Hc H1) as Hc1.
  destruct (frame_commits_pending w1 Hc1) as (w2 & H2 & Hw2).
  pose proof (createResizeHandler_wiring _ _ _ H1) as (Ep & Es & _).
  exists w1, w2. repeat split; try done.
  - by apply createResizeHandler_log.
  - rewrite (pending_flush_batch w w1 es He H1) in Hw2.
    destruct (last (forwarded w es)); [|done].
    unfold onResize_call in *. by rewrite Ep in Hw2.
Qed.

(** C9: every entry of a batch is compared with the state read when the
    handler starts: with the mount flag down, the sizes passed to the
    updater are exactly the entries' sizes that differ from that state, so
    two entries in a row with the same new size both reach the updater. *)
Theorem entries_compared_with_state_at_batch_start (w : world) (es : list entry) :
  skipOnMount w = false ->
  (exists w', createResizeHandler w es = Some w' /\
     log w' = log w ++ (Updater <$> filter (qualifies w) (entry_size <$> es))) /\
  (forall n1 n2 s, qualifies w s = true ->
     exists w', createResizeHandler w [Entry n1 (Rect s); Entry n2 (Rect s)] = Some w' /\
       log w' = log w ++ [Updater s; Updater s]).
Proof.
  intros Hsk. split.
  - destruct (createResizeHandler_total w es) as [w' H]. exists w'. split; [done|].
    rewrite (createResizeHandler_log _ _ _ H). unfold forwarded. by rewrite Hsk.
  - intros n1 n2 s Hq.
    destruct (createResizeHandler_total w [Entry n1 (Rect s); Entry n2 (Rect s)]) as [w' H].
    exists w'. split; [done|].
    rewrite (createResizeHandler_log _ _ _ H). unfold forwarded. rewrite Hsk.
    change (entry_size <$> [Entry n1 (Rect s); Entry n2 (Rect s)]) with [s; s].
    rewrite !filter_cons, !decide_True by (by rewrite Hq). done.
Qed.

(** C5: a batch whose entries all carry the width and height of the
    current state (in the handled dimensions) is processed without any
    call leaving the component and leaves no flush behind; and in a world
    with no flush and no rate-limited call on its way, any sequence of
    such deliveries, with timers and frames in between, never sets the
    state and never invokes [onResize]: the updater is not even called. *)
Theorem repeated_size_never_notifies (w : world) (es : list entry) (evs : list event) :
  (Forall (fun e => equals_state w (entry_size e)) es ->
   exists w', createResizeHandler w es = Some w' /\
              state w' = state w /\ log w' = log w /\
              (enabled w = true -> pending_flush w' = None)) /\
  (quiescent w = true ->
   Forall (repeats_state w) evs ->
   exists w', run w evs = Some w' /\ state w' = state w /\ log w' = log w).
Proof.
  split.
  - intros Hes. destruct (createResizeHandler_total w es) as [w' H]. exists w'.
    assert (forwarded w es = []) as Hfw.
    { apply forwarded_nil. eapply Forall_impl; [exact Hes|].
      intros e. by apply equals_state_unchanged. }
    pose proof (createResizeHandler_wiring _ _ _ H) as (_ & Es & _).
    split; [done|]. split; [done|]. split.
    + by rewrite (createResizeHandler_log _ _ _ H), Hfw, app_nil_r.
    + intros He. by rewrite (pending_flush_batch w w' es He H), Hfw.
  - intros [Hi Ht]%andb_prop Hevs.
    assert (settled w w) as Hw.
    { refine (conj _ (conj _ (conj _ (conj _ _)))); try done.
      - by apply idle_only_pending.
      - intros es' Hes. by rewrite Hes in Ht. }
    destruct (run_settled w evs w Hw Hevs) as (w' & Hrun & _ & Hst & Hlog & _).
    by exists w'.
Qed.

(** ** The mount flag *)

Lemma run_frames_skipOnMount (addresses : list nat) :
  forall w w', run_frames w addresses = Some w' ->
    skipOnMount w' = skipOnMount w /\ isSSR w' = isSSR w.
Proof.
  induction addresses as [|a addresses IH]; intros w w'; cbn; [by intros [= <-]|].
  destruct (run_frame w a) as [w1|] eqn:H1; cbn; [|done].
  intros H. apply IH in H as [-> ->].
  unfold run_frame, flush in H1.
  destruct (schedulers w !! a) as [r|]; [|by injection H1 as <-].
  destruct (frameId r); [|by injection H1 as <-].
  destruct (lastArgs r); cbn in H1; [|done].
  injection H1 as <-. by destruct (isFunction _).
Qed.

Lemma componentWillUnmount_flags (w : world) :
  skipOnMount (componentWillUnmount w) = skipOnMount w /\
  isSSR (componentWillUnmount w) = isSSR w.
Proof. destruct w as [? ? ? [a|] ? ? ? [[|h]|] ? ? ? ? ? ?]; done. Qed.

Lemma invoke_callback_flags (w w' : world) (es : list entry) (lead : bool) :
  invoke_callback es lead w = Some w' ->
  (skipOnMount w = false -> skipOnMount w' = false) /\ isSSR w' = isSSR w.
Proof.
  assert (forall v es w', createResizeHandler v es = Some w' ->
            (skipOnMount v = false -> skipOnMount w' = false) /\ isSSR w' = isSSR v) as Hh.
  { intros v es' v' H.
    pose proof (createResizeHandler_wiring _ _ _ H) as (_ & _ & _ & _ & _ & _ & _ & E & _).
    split; [|done]. intros Hsk. rewrite (createResizeHandler_skipOnMount _ _ _ H).
    destruct (enabled v), es'; done. }
  unfold invoke_callback. destruct (callback w); [apply Hh|].
  destruct lead; [|by intros [= <-]]. intros H. by apply Hh in H.
Qed.

Lemma step_flags (w w' : world) (ev : event) :
  step w ev = Some w' ->
  (skipOnMount w = false -> skipOnMount w' = false) /\ isSSR w' = isSSR w.
Proof.
  destruct ev as [p d|rs lead|es lead|trail| |]; cbn.
  - intros [= <-]. unfold componentDidUpdate. rewrite attachObserver_skipOnMount.
    by destruct (attachObserver_wiring d (set_props p w)) as (_ & _ & -> & _).
  - destruct (notifications w rs); [by intros [= <-] | apply invoke_callback_flags].
  - apply invoke_callback_flags.
  - unfold timer_expired. destruct (timer w); [|by intros [= <-]].
    destruct trail; [|by intros [= <-]].
    intros H. pose proof (createResizeHandler_wiring _ _ _ H) as (_ & _ & _ & _ & _ & _ & _ & E & _).
    split; [|done]. rewrite (createResizeHandler_skipOnMount _ _ _ H). cbn.
    by destruct (enabled _), l.
  - intros H. apply run_frames_skipOnMount in H as [-> ->]. done.
  - intros [= <-]. by destruct (componentWillUnmount_flags w) as [-> ->].
Qed.

Lemma run_skipOnMount_cleared (evs : list event) :
  forall w w', skipOnMount w = false -> run w evs = Some w' -> skipOnMount w' = false.
Proof.
  induction evs as [|ev evs IH]; intros w w' Hsk; cbn; [by intros [= <-]|].
  destruct (step w ev) as [w1|] eqn:Hs; cbn; [|done].
  apply IH. by apply (step_flags _ _ _ Hs).
Qed.

(** C2, as amended: with the mount flag up, the first entry the handler
    processes is not passed to the updater, whether or not it is a size
    change, and every later qualifying entry is; the flag is down after
    that entry and stays down whatever happens next.  A first entry that
    carries numeric width and height after mount is a qualifying change,
    and then it is exactly the first qualifying change that is left out. *)
Theorem skipOnMount_skips_first_entry (w : world) (e : entry) (es : list entry) :
  skipOnMount w = true ->
  enabled w = true ->
  (exists w', createResizeHandler w (e :: es) = Some w' /\
     skipOnMount w' = false /\
     log w' = log w ++ (Updater <$> filter (qualifies w) (entry_size <$> es)) /\
     forall evs w'', run w' evs = Some w'' -> skipOnMount w'' = false) /\
  (qualifies w (entry_size e) = true -> suppresses_first_qualifying w (e :: es)) /\
  (forall n z1 z2, e = Entry n (Rect (Size (Px z1) (Px z2))) ->
     state w = Size Undefined Undefined -> isSSR w = false ->
     qualifies w (entry_size e) = true).
Proof.
  intros Hsk He.
  destruct (createResizeHandler_total w (e :: es)) as [w' H].
  assert (log w' = log w ++ (Updater <$> filter (qualifies w) (entry_size <$> es))) as Hlog
    by (rewrite (createResizeHandler_log _ _ _ H); unfold forwarded; by rewrite Hsk).
  assert (skipOnMount w' = false) as Hsk'
    by (rewrite (createResizeHandler_skipOnMount _ _ _ H); by rewrite He).
  split; [|split].
  - exists w'. repeat split; try done. intros evs w''. by apply run_skipOnMount_cleared.
  - intros Hq. exists w'. split; [done|].
    rewrite fmap_cons, filter_cons, decide_True by (by rewrite Hq). done.
  - intros n z1 z2 -> Hst Hssr. unfold qualifies, isSizeChanged, strict_ne, enabled in *.
    rewrite Hst, Hssr. cbn.
    destruct (Props.handleWidth (props w)), (Props.handleHeight (props w)); done.
Qed.

(** ** Nothing is committed before the flag is down or outside a browser *)

Lemma forwarded_unqualified (w : world) (es : list entry) :
  (skipOnMount w = true /\ es = []) \/ isSSR w = true -> forwarded w es = [].
Proof.
  intros [[_ ->]|Hssr]; [unfold forwarded; by destruct (skipOnMount w)|].
  apply forwarded_nil, Forall_forall. intros e _. unfold qualifies.
  rewrite Hssr. apply andb_false_r.
Qed.

Lemma createResizeHandler_untouched (w w' : world) (es : list entry) :
  coherent w -> untouched w -> createResizeHandler w es = Some w' -> untouched w'.
Proof.
  intros Hc Hu H Hpre.
  pose proof (createResizeHandler_wiring _ _ _ H) as (_ & Es & _ & _ & _ & _ & _ & Essr & _).
  pose proof (createResizeHandler_skipOnMount _ _ _ H) as Esk.
  destruct (enabled w) eqn:He.
  2:{ rewrite createResizeHandler_disabled in H by done. injection H as <-.
      by apply Hu. }
  assert ((skipOnMount w = true /\ es = []) \/ isSSR w = true) as Hq.
  { destruct Hpre as [Hsk|Hssr]; [left | right; by rewrite <- Essr].
    rewrite Esk in Hsk. by destruct es. }
  assert (skipOnMount w = true \/ isSSR w = true) as Hw by (destruct Hq as [[? _]|?]; auto).
  destruct (Hu Hw) as [Hst Hi]. rewrite Es. split; [done|].
  rewrite createResizeHandler_enabled in H by done. injection H as <-.
  unfold batch_result. cbn. rewrite (forwarded_unqualified w es Hq). cbn.
  by apply only_pending_snoc, rafClean_idle.
Qed.

Lemma step_untouched (w w' : world) (ev : event) :
  coherent w -> untouched w -> step w ev = Some w' -> untouched w'.
Proof.
  intros Hc Hu. destruct ev as [p d|rs lead|es lead|trail| |]; cbn.
  - intros [= <-]. unfold untouched, componentDidUpdate.
    rewrite attachObserver_skipOnMount, attachObserver_state, attachObserver_schedulers.
    by destruct (attachObserver_wiring d (set_props p w)) as (_ & _ & -> & _).
  - destruct (notifications w rs); [by intros [= <-]|].
    unfold invoke_callback. destruct (callback w); [by apply createResizeHandler_untouched|].
    destruct lead; [by apply createResizeHandler_untouched | by intros [= <-]].
  - unfold invoke_callback. destruct (callback w); [by apply createResizeHandler_untouched|].
    destruct lead; [by apply createResizeHandler_untouched | by intros [= <-]].
  - unfold timer_expired. destruct (timer w); [|by intros [= <-]].
    destruct trail; [by apply createResizeHandler_untouched | by intros [= <-]].
  - intros H Hpre. destruct (run_frames_skipOnMount _ _ _ H) as [Esk Essr].
    rewrite Esk, Essr in Hpre. destruct (Hu Hpre) as [Hst Hi].
    rewrite animation_frame_quiet in H by done. by injection H as <-.
  - intros [= <-] Hpre. destruct (componentWillUnmount_flags w) as [Esk Essr].
    rewrite Esk, Essr in Hpre. destruct (Hu Hpre) as [Hst Hi].
    rewrite componentWillUnmount_state, componentWillUnmount_schedulers.
    split; [done|]. by apply rafClean_idle.
Qed.

Lemma run_untouched (evs : list event) :
  forall w w', coherent w -> untouched w -> run w evs = Some w' -> untouched w'.
Proof.
  induction evs as [|ev evs IH]; intros w w' Hc Hu; cbn; [by intros [= <-]|].
  destruct (step w ev) as [w1|] eqn:Hs; cbn; [|done].
  apply IH; [by eapply step_coherent | by eapply step_untouched].
Qed.

Lemma mount_untouched (ssr : bool) (p : Props.t) (d : dom) : untouched (mount ssr p d).
Proof.
  intros _. unfold mount, componentDidMount.
  rewrite attachObserver_state, attachObserver_schedulers. done.
Qed.

(** C10: the handler returns on every array of entries, malformed ones
    included; a null or undefined entry, or one without a content
    rectangle, is read as width and height undefined; and once a numeric
    size is in the state such an entry is a size change: it is passed to
    the updater and the next frame commits width and height undefined. *)
Theorem malformed_entry_is_processed
    (ssr : bool) (p : Props.t) (d : dom) (evs : list event) (w : world)
    (e : entry) (z1 z2 : Z) :
  run (mount ssr p d) evs = Some w ->
  malformed e = true ->
  state w = Size (Px z1) (Px z2) ->
  enabled w = true ->
  (forall (v : world) (es : list entry), is_Some (createResizeHandler v es)) /\
  destructure (or_empty_object (entry_and_contentRect e)) = Some (Size Undefined Undefined) /\
  qualifies w (Size Undefined Undefined) = true /\
  exists w1 w2,
    createResizeHandler w [e] = Some w1 /\
    log w1 = log w ++ [Updater (Size Undefined Undefined)] /\
    animation_frame w1 = Some w2 /\
    state w2 = Size Undefined Undefined /\
    log w2 = log w1 ++ onResize_call w (Size Undefined Undefined)
                    ++ [SetState (Size Undefined Undefined)].
Proof.
  intros Hrun Hm Hst He.
  assert (coherent w) as Hc by (eapply run_coherent; [apply mount_coherent | done]).
  assert (untouched w) as Hu
    by (eapply run_untouched; [apply mount_coherent | apply mount_untouched | done]).
  assert (skipOnMount w = false /\ isSSR w = false) as [Hsk Hssr].
  { destruct (skipOnMount w) eqn:Hsk; [destruct Hu as [Hu _]; [by left | congruence]|].
    destruct (isSSR w) eqn:Hssr; [destruct Hu as [Hu _]; [by right | congruence]|]. done. }
  assert (entry_size e = Size Undefined Undefined) as Hsz by (by destruct e as [| |n [| |r]]).
  assert (qualifies w (Size Undefined Undefined) = true) as Hq.
  { unfold qualifies, isSizeChanged, strict_ne, enabled in *. rewrite Hst, Hssr. cbn.
    destruct (Props.handleWidth (props w)), (Props.handleHeight (props w)); done. }
  split; [apply createResizeHandler_total|].
  split; [by rewrite destructure_entry, Hsz|]. split; [done|].
  destruct (createResizeHandler_total w [e]) as [w1 H1].
  pose proof (createResizeHandler_coherent _ _ _ Hc H1) as Hc1.
  destruct (frame_commits_pending w1 Hc1) as (w2 & H2 & Hw2).
  pose proof (createResizeHandler_wiring _ _ _ H1) as (Ep & _).
  assert (forwarded w [e] = [Size Undefined Undefined]) as Hfw.
  { unfold forwarded. rewrite Hsk. cbn [fmap list_fmap]. rewrite Hsz.
    rewrite filter_cons, decide_True by (by rewrite Hq). done. }
  rewrite (pending_flush_batch w w1 [e] He H1), Hfw in Hw2. cbn in Hw2.
  destruct Hw2 as [Hs2 Hl2].
  exists w1, w2. repeat split; try done.
  - by rewrite (createResizeHandler_log _ _ _ H1), Hfw.
  - unfold onResize_call in *. by rewrite Ep in Hl2.
Qed.

(** ** Element resolution *)

(** C3: outside a browser nothing is resolved.  In a browser a supplied
    selector decides alone (the result is whatever the document finds for
    it); without a selector a DOM element in [targetDomEl] is returned;
    failing that the DOM element held by the ref; failing that the element
    is inferred from the rendered node: the node itself for the
    render-prop, function-child, single-child and child-array strategies,
    its parent otherwise.  The ref consulted is [this.targetRef], into
    which [attachObserver] has copied the node of the [targetRef] prop. *)
Theorem getElement_priority (d : dom) (w : world) :
  (isSSR w = true -> getElement d w = None) /\
  (isSSR w = false ->
   (forall q, Props.querySelector (props w) = Some q -> q <> ""%string ->
      getElement d w = document_querySelector d q) /\
   (Props.querySelector (props w) = None \/ Props.querySelector (props w) = Some ""%string ->
    (forall n, Props.targetDomEl (props w) = JDomElement n -> getElement d w = Some n) /\
    (isDOMElement (Props.targetDomEl (props w)) = false ->
     (forall n, targetRef w = JDomElement n -> getElement d w = Some n) /\
     (isDOMElement (targetRef w) = false ->
      getElement d w =
      match findDOMNode d with
      | None => None
      | Some currentElement =>
          if decide (getRenderType w = parent) then parentElement d currentElement
          else Some currentElement
      end)))) /\
  (forall n, Props.targetRef (props w) = Some (JDomElement n) ->
     targetRef (copy_targetRef w) = JDomElement n).
Proof.
  split; [|split].
  - intros Hssr. unfold getElement. by rewrite Hssr.
  - intros Hssr. unfold getElement. rewrite Hssr. split.
    + intros q -> Hq. cbn. by destruct (String.eqb_spec q "").
    + intros Hq.
      replace (truthy (from_option JStr JNull (Props.querySelector (props w)))) with false
        by (by destruct Hq as [-> | ->]).
      split.
      * by intros n ->.
      * intros Hdom. rewrite Hdom, andb_false_r. split.
        -- by intros n ->.
        -- intros Href. rewrite Href. destruct (findDOMNode d); [|done].
           by destruct (getRenderType w).
  - intros n H. unfold copy_targetRef. by rewrite H.
Qed.

(** ** Rendering *)

Lemma mapM_total {A B : Type} (f : A -> option B) (g : A -> B) (l : list A) :
  (forall x, f x = Some (g x)) -> mapM f l = Some (g <$> l).
Proof.
  intros H. induction l as [|x l IH]; [done|].
  cbn. rewrite H. cbn. change (mapM f l ≫= (fun k => Some (g x :: k)) = Some (g x :: (g <$> l))).
  by rewrite IH.
Qed.

(** C6, as amended: exactly one strategy is taken, in this order: a
    function [render] prop is applied to the width and height of the
    state; otherwise a function child is; otherwise a single element child
    is cloned with width and height set; otherwise each entry of an array
    child is cloned in the same way when it is truthy and replaced by
    [false] when it is falsy (null, undefined, false, 0, the empty
    string); otherwise an element of the [nodeType] tag with no props is
    rendered. *)
Theorem render_dispatch (w : world) :
  (forall f, Props.render (props w) = JFunction f -> render w = Some (f (state w))) /\
  (isFunction (Props.render (props w)) = false ->
   (forall f, Props.children (props w) = JFunction f -> render w = Some (f (state w))) /\
   (forall el, Props.children (props w) = JReactElement el ->
      render w = Some (JReactElement (with_size el (state w)))) /\
   (forall l, Props.children (props w) = JArray l ->
      exists out, render w = Some (JArray out) /\ length out = length l /\
        forall i el, l !! i = Some el ->
          out !! i = (if truthy el then cloneElement el (state w) else Some (JBool false)) /\
          (truthy el = true -> is_Some (cloneElement el (state w)))) /\
   (isFunction (Props.children (props w)) = false ->
    isValidElement (Props.children (props w)) = false ->
    Array_isArray (Props.children (props w)) = false ->
    render w = Some (JReactElement (RElement (Some (Props.nodeType (props w))) ∅)))).
Proof.
  assert (Size (width (state w)) (height (state w)) = state w) as Heta by (by destruct (state w)).
  unfold render, getRenderType. rewrite Heta. split.
  - by intros f ->.
  - intros ->. split; [by intros f ->|]. split; [by intros el ->|]. split.
    + intros l ->. cbn.
      set (f := fun el => if truthy el then cloneElement el (state w) else Some (JBool false)).
      set (g := fun el => default JNull (f el)).
      assert (forall el, f el = Some (g el)) as Hfg
        by (intros el; unfold g, f; destruct el as [| |[]|z|s| | | |]; cbn; try done;
            by destruct (negb _)).
      exists (g <$> l). rewrite (mapM_total f g l Hfg). split; [done|].
      split; [apply length_fmap|].
      intros i el Hl. rewrite list_lookup_fmap, Hl. cbn. split; [by rewrite <- Hfg|].
      intros Ht. specialize (Hfg el). unfold f in Hfg. rewrite Ht in Hfg. eauto.
    + by intros -> -> ->.
Qed.

(** * Concrete runs *)

(** C1, counterexample: mounted on node 1 and then re-rendered with node 2
    as target, the instance tracks node 2 while node 1 is still registered:
    two registrations are active. *)
Lemma second_target_adds_a_registration :
  exists w, run (mount false (sample_props 1%positive) sample_dom)
                [DidUpdate (sample_props 2%positive) sample_dom] = Some w /\
            observableElement w = Some 2%positive /\
            1%positive ∈ observed w /\
            ~ single_registration w.
Proof.
  eexists. split; [reflexivity|]. split; [reflexivity|].
  split; [apply (bool_decide_unpack _); vm_compute; exact I|].
  unfold single_registration. vm_compute. lia.
Qed.

Lemma tracked_element_is_registered_witness :
  run (mount false (sample_props 1%positive) sample_dom)
      [Resized [(1%positive, px 100 50)] false; AnimationFrame] = Some committed_world /\
  observableElement committed_world = Some 1%positive /\
  1%positive ∈ observed committed_world /\
  observed (componentWillUnmount committed_world) = ∅.
Proof.
  assert (run (mount false (sample_props 1%positive) sample_dom)
            [Resized [(1%positive, px 100 50)] false; AnimationFrame] = Some committed_world)
    as Hrun by (vm_compute; reflexivity).
  destruct (tracked_element_is_registered false (sample_props 1%positive) sample_dom
              [Resized [(1%positive, px 100 50)] false; AnimationFrame] committed_world
              (sample_props 2%positive) sample_dom
              ltac:(repeat constructor) Hrun) as (Ho & _ & _ & Hu).
  split; [exact Hrun|]. split; [reflexivity|]. split; [exact (Ho _ eq_refl) | exact Hu].
Defined.

(** C2, counterexample: mounted with [skipOnMount], a batch whose first
    entry is null and whose second carries 100x50 has one qualifying size
    change, and the handler passes it to the updater. *)
Lemma null_first_entry_spends_the_skip :
  mount false (with_skipOnMount (sample_props 1%positive)) sample_dom = skipping_world /\
  filter (qualifies skipping_world)
    (entry_size <$> [EntryNull; Entry 1%positive (Rect (px 100 50))]) = [px 100 50] /\
  ~ suppresses_first_qualifying skipping_world
      [EntryNull; Entry 1%positive (Rect (px 100 50))].
Proof.
  split; [vm_compute; reflexivity|]. split; [vm_compute; reflexivity|].
  intros (w' & H & Hlog). vm_compute in H. injection H as <-.
  vm_compute in Hlog. discriminate Hlog.
Qed.

Lemma skipOnMount_skips_first_entry_witness :
  skipOnMount skipping_world = true /\
  exists w',
    createResizeHandler skipping_world
      [Entry 1%positive (Rect (px 100 50)); Entry 1%positive (Rect (px 120 50))] = Some w' /\
    skipOnMount w' = false /\
    log w' = [Observe 1%positive; Updater (px 120 50)].
Proof.
  split; [reflexivity|].
  destruct (skipOnMount_skips_first_entry skipping_world
              (Entry 1%positive (Rect (px 100 50))) [Entry 1%positive (Rect (px 120 50))]
              eq_refl eq_refl) as [(w' & H & Hsk & Hlog & _) _].
  exists w'. split; [exact H|]. split; [exact Hsk|]. exact Hlog.
Defined.

Lemma getElement_priority_witness :
  getElement sample_dom (copy_targetRef (constructor false all_targets)) = Some 7%positive.
Proof.
  destruct (getElement_priority sample_dom (copy_targetRef (constructor false all_targets)))
    as (_ & H & _).
  destruct (H eq_refl) as [Hq _].
  exact (Hq "#box"%string eq_refl ltac:(discriminate)).
Defined.

Lemma unhandled_dimensions_never_update_witness :
  exists w, run (mount false (with_handles false false (sample_props 1%positive)) sample_dom)
                [Resized [(1%positive, px 100 50)] true; AnimationFrame] = Some w /\
            state w = Size Undefined Undefined /\ updates w = [].
Proof.
  apply unhandled_dimensions_never_update; [reflexivity | reflexivity | repeat constructor].
Defined.

Lemma repeated_size_never_notifies_witness :
  quiescent committed_world = true /\
  (exists w', createResizeHandler committed_world [Entry 1%positive (Rect (px 100 50))] = Some w' /\
              state w' = state committed_world /\ log w' = log committed_world /\
              pending_flush w' = None) /\
  exists w', run committed_world
               [Resized [(1%positive, px 100 50)] false; AnimationFrame;
                Callback [Entry 1%positive (Rect (px 100 50))] false; AnimationFrame]
             = Some w' /\
             state w' = state committed_world /\ log w' = log committed_world.
Proof.
  destruct (repeated_size_never_notifies committed_world
              [Entry 1%positive (Rect (px 100 50))]
              [Resized [(1%positive, px 100 50)] false; AnimationFrame;
               Callback [Entry 1%positive (Rect (px 100 50))] false; AnimationFrame])
    as [Hbatch Hrun].
  split; [reflexivity|]. split.
  - destruct Hbatch as (w' & H & Hst & Hlog & Hp);
      [repeat first [constructor | intros _; reflexivity]|].
    exists w'. split; [exact H|]. split; [exact Hst|]. split; [exact Hlog | exact (Hp eq_refl)].
  - apply Hrun; [reflexivity|]. repeat first [constructor | intros _; reflexivity].
Defined.

(** C6, counterexample: an array child holding [false] is rendered as
    [false]; the entry is not null and is not cloned. *)
Lemma false_entry_is_not_cloned :
  render (constructor false (with_children (JArray [JBool false]) (sample_props 1%positive)))
    = Some (JArray [JBool false]) /\
  ~ clones_each_non_null
      (constructor false (with_children (JArray [JBool false]) (sample_props 1%positive))).
Proof.
  split; [reflexivity|].
  intros H. destruct (H [JBool false] eq_refl eq_refl) as (out & Hr & Hc).
  cbn in Hr. injection Hr as <-.
  specialize (Hc 0%nat (JBool false) eq_refl ltac:(discriminate)). discriminate Hc.
Qed.

Lemma render_dispatch_witness :
  render (constructor false
            (with_children (JArray [JBool false; JReactElement (RElement (Some "p"%string) ∅)])
               (sample_props 1%positive)))
  = Some (JArray [JBool false;
                  JReactElement (with_size (RElement (Some "p"%string) ∅)
                                   (Size Undefined Undefined))]).
Proof.
  destruct (render_dispatch
              (constructor false
                 (with_children (JArray [JBool false; JReactElement (RElement (Some "p"%string) ∅)])
                    (sample_props 1%positive)))) as (_ & H).
  destruct (H eq_refl) as (_ & _ & Harr & _).
  destruct (Harr _ eq_refl) as (out & Hr & Hlen & Hout).
  rewrite Hr. do 2 f_equal.
  destruct out as [|x [|y [|z out]]]; try discriminate Hlen.
  destruct (Hout 0%nat _ eq_refl) as [H0 _]. destruct (Hout 1%nat _ eq_refl) as [H1 _].
  cbn in H0, H1. injection H0 as ->. injection H1 as ->. reflexivity.
Defined.



Lemma batch_commits_last_size_witness :
  run (mount false (sample_props 1%positive) sample_dom)
      [Resized [(1%positive, px 100 50)] false; AnimationFrame] = Some committed_world /\
  exists w1 w2,
    createResizeHandler committed_world
      [Entry 1%positive (Rect (px 110 50)); Entry 1%positive (Rect (px 100 50));
       Entry 1%positive (Rect (px 120 60))] = Some w1 /\
    log w1 = log committed_world ++ [Updater (px 110 50); Updater (px 120 60)] /\
    animation_frame w1 = Some w2 /\
    state w2 = px 120 60 /\
    log w2 = log w1 ++ [OnResize (Px 120) (Px 60); SetState (px 120 60)].
Proof.
  assert (run (mount false (sample_props 1%positive) sample_dom)
            [Resized [(1%positive, px 100 50)] false; AnimationFrame] = Some committed_world)
    as Hrun by (vm_compute; reflexivity).
  split; [exact Hrun|].
  destruct (batch_commits_last_size false (sample_props 1%positive) sample_dom
              [Resized [(1%positive, px 100 50)] false; AnimationFrame] committed_world
              [Entry 1%positive (Rect (px 110 50)); Entry 1%positive (Rect (px 100 50));
               Entry 1%positive (Rect (px 120 60))]
              Hrun eq_refl) as (_ & w1 & w2 & H1 & Hl1 & _ & H2 & Hw2).
  exists w1, w2. split; [exact H1|]. split; [exact Hl1|]. split; [exact H2|]. exact Hw2.
Defined.

Lemma entries_compared_with_state_at_batch_start_witness :
  skipOnMount committed_world = false /\
  qualifies committed_world (px 120 60) = true /\
  exists w',
    createResizeHandler committed_world
      [Entry 1%positive (Rect (px 120 60)); Entry 1%positive (Rect (px 120 60))] = Some w' /\
    log w' = log committed_world ++ [Updater (px 120 60); Updater (px 120 60)].
Proof.
  split; [reflexivity|]. split; [reflexivity|].
  destruct (entries_compared_with_state_at_batch_start committed_world [] eq_refl) as [_ H].
  exact (H 1%positive 1%positive (px 120 60) eq_refl).
Defined.

Lemma malformed_entry_is_processed_witness :
  run (mount false (sample_props 1%positive) sample_dom)
      [Resized [(1%positive, px 100 50)] false; AnimationFrame] = Some committed_world /\
  state committed_world = px 100 50 /\
  exists w1 w2,
    createResizeHandler committed_world [Entry 1%positive RectUndefined] = Some w1 /\
    animation_frame w1 = Some w2 /\
    state w2 = Size Undefined Undefined /\
    log w2 = log w1 ++ [OnResize Undefined Undefined; SetState (Size Undefined Undefined)].
Proof.
  assert (run (mount false (sample_props 1%positive) sample_dom)
            [Resized [(1%positive, px 100 50)] false; AnimationFrame] = Some committed_world)
    as Hrun by (vm_compute; reflexivity).
  split; [exact Hrun|]. split; [reflexivity|].
  destruct (malformed_entry_is_processed false (sample_props 1%positive) sample_dom
              [Resized [(1%positive, px 100 50)] false; AnimationFrame] committed_world
              (Entry 1%positive RectUndefined) 100 50 Hrun eq_refl eq_refl eq_refl)
    as (_ & _ & _ & w1 & w2 & H1 & _ & H2 & Hs2 & Hl2).
  exists w1, w2. split; [exact H1|]. split; [exact H2|]. split; [exact Hs2 | exact Hl2].
Defined.

(** * Further properties of the component *)

(** ** Re-attaching *)

Lemma getElement_agree (d : dom) (w w' : world) :
  isSSR w' = isSSR w -> props w' = props w -> targetRef w' = targetRef w ->
  getElement d w' = getElement d w.
Proof. intros H1 H2 H3. unfold getElement, getRenderType. by rewrite H1, H2, H3. Qed.

Lemma copy_targetRef_twice (w : world) : copy_targetRef (copy_targetRef w) = copy_targetRef w.
Proof.
  unfold copy_targetRef. destruct (Props.targetRef (props w)) as [current|] eqn:Hp; [|by rewrite Hp].
  destruct (truthy current) eqn:Ht; cbn; by rewrite Hp, Ht.
Qed.

Lemma copy_targetRef_registered (n : node) (w : world) :
  copy_targetRef (observe n (set_observableElement (Some n) (copy_targetRef w)))
  = observe n (set_observableElement (Some n) (copy_targetRef w)).
Proof.
  unfold copy_targetRef. destruct (Props.targetRef (props w)) as [current|] eqn:Hp; cbn;
    [|by rewrite Hp].
  destruct (truthy current) eqn:Ht; cbn; by rewrite Hp, Ht.
Qed.

(** X1: [attachObserver] is idempotent: run again on the same document
    and props (as [componentDidUpdate] does after every render) it changes
    nothing; in particular the element already tracked is not registered a
    second time. *)
Theorem attachObserver_idempotent (d : dom) (w : world) :
  attachObserver d (attachObserver d w) = attachObserver d w.
Proof.
  remember (attachObserver d w) as w1 eqn:E. unfold attachObserver in E.
  destruct (getElement d (copy_targetRef w)) as [element|] eqn:Hg.
  - case_bool_decide as Ho; subst w1; unfold attachObserver.
    + rewrite copy_targetRef_twice, Hg. by rewrite bool_decide_eq_true_2.
    + rewrite copy_targetRef_registered.
      rewrite (getElement_agree d (copy_targetRef w)), Hg by done.
      by rewrite bool_decide_eq_true_2.
  - subst w1. unfold attachObserver. by rewrite copy_targetRef_twice, Hg.
Qed.

(** ** Outside a browser *)

Lemma attachObserver_ssr (d : dom) (w : world) :
  isSSR w = true -> attachObserver d w = copy_targetRef w.
Proof.
  intros Hssr. unfold attachObserver.
  replace (getElement d (copy_targetRef w)) with (@None node); [done|].
  unfold getElement.
  replace (isSSR (copy_targetRef w)) with true; [done|].
  unfold copy_targetRef. by repeat case_match.
Qed.

Lemma inert_copy_targetRef (w : world) : inert w -> inert (copy_targetRef w).
Proof. unfold copy_targetRef. by repeat case_match. Qed.

Lemma inert_handler (w w' : world) (es : list entry) :
  inert w -> createResizeHandler w es = Some w' -> inert w'.
Proof.
  intros (Hssr & Hi & Hst & Ho & Hoe & Hl). destruct (enabled w) eqn:He.
  - rewrite createResizeHandler_enabled by done. intros [= <-].
    rewrite (forwarded_unqualified w es) by (by right).
    assert (only_pending (schedulers (rafClean w)) None) as Hi'
      by (by apply rafClean_idle, only_pending_weaken).
    unfold inert, batch_result, createUpdater. cbn.
    unfold rafClean in *. destruct (raf w); cbn in *;
      (refine (conj _ (conj _ (conj _ (conj _ (conj _ _)))));
       [done | by apply only_pending_snoc | done | done | done | by rewrite app_nil_r]).
  - rewrite createResizeHandler_disabled by done. by intros [= <-].
Qed.

Lemma inert_set_timer (w : world) (t : option (list entry)) : inert w -> inert (set_timer t w).
Proof. intros (? & ? & ? & ? & ? & ?). by refine (conj _ (conj _ (conj _ (conj _ (conj _ _))))). Qed.

Lemma inert_unmount (w : world) : inert w -> inert (componentWillUnmount w).
Proof.
  intros (Hssr & Hi & Hst & Ho & Hoe & Hl).
  refine (conj _ (conj _ (conj _ (conj _ (conj _ _))))).
  - by destruct (componentWillUnmount_flags w) as [_ ->].
  - by apply componentWillUnmount_idle, only_pending_weaken.
  - by rewrite componentWillUnmount_state.
  - apply componentWillUnmount_observed.
  - destruct w as [? ? ? [a|] ? ? ? [[|h]|] ? ? ? ? ? ?]; exact Hoe.
  - assert (log (componentWillUnmount w) = log w ++ [Disconnect]) as ->
      by (destruct w as [? ? ? [a|] ? ? ? [[|h]|] ? ? ? ? ? ?]; reflexivity).
    apply Forall_app. split; [done | by constructor].
Qed.

Lemma step_inert (w : world) (ev : event) :
  inert w -> exists w', step w ev = Some w' /\ inert w'.
Proof.
  intros Hw. destruct ev as [p d|rs lead|es lead|trail| |]; cbn.
  - eexists; split; [done|]. unfold componentDidUpdate.
    assert (inert (set_props p w)) as Hp
      by (destruct Hw as (? & ? & ? & ? & ? & ?);
          by refine (conj _ (conj _ (conj _ (conj _ (conj _ _)))))).
    rewrite attachObserver_ssr by apply Hp. by apply inert_copy_targetRef.
  - destruct Hw as (Hssr & Hi & Hst & Ho & Hoe & Hl).
    rewrite notifications_disconnected by done. exists w. split; [done|].
    by refine (conj _ (conj _ (conj _ (conj _ (conj _ _))))).
  - unfold invoke_callback. destruct (callback w).
    + destruct (createResizeHandler_total w es) as [w' H]. exists w'. split; [done|].
      by eapply inert_handler.
    + destruct lead; [|eexists; split; [done | by apply inert_set_timer]].
      destruct (createResizeHandler_total (set_timer None w) es) as [w' H].
      exists w'. split; [done|]. eapply inert_handler; [|done]. by apply inert_set_timer.
  - unfold timer_expired. destruct (timer w) as [es|]; [|by exists w].
    destruct trail; [|eexists; split; [done | by apply inert_set_timer]].
    destruct (createResizeHandler_total (set_timer None w) es) as [w' H].
    exists w'. split; [done|]. eapply inert_handler; [|done]. by apply inert_set_timer.
  - exists w. split; [|done]. apply animation_frame_quiet, Hw.
  - eexists; split; [done|]. by apply inert_unmount.
Qed.

(** X2: outside a browser the component is inert.  From mount on and
    whatever happens afterwards, every event is processed, no element is
    ever registered or tracked, the state stays undefined, and the only
    call that leaves the component is [disconnect] at teardown: no
    [observe], no updater call, no [onResize], no [setState]. *)
Theorem server_side_is_inert (p : Props.t) (d : dom) (evs : list event) :
  exists w, run (mount true p d) evs = Some w /\
    observed w = ∅ /\ observableElement w = None /\
    state w = Size Undefined Undefined /\
    Forall (fun e => e = Disconnect) (log w).
Proof.
  assert (inert (mount true p d)) as Hm.
  { unfold mount, componentDidMount. rewrite attachObserver_ssr by done.
    apply inert_copy_targetRef.
    by refine (conj _ (conj _ (conj _ (conj _ (conj _ _))))). }
  generalize (mount true p d), Hm. clear Hm.
  induction evs as [|ev evs IH]; intros w Hw.
  - exists w. by destruct Hw as (_ & _ & ? & ? & ? & ?).
  - destruct (step_inert w ev Hw) as (w1 & Hs & Hw1).
    destruct (IH w1 Hw1) as (w' & Hrun & H). exists w'. cbn. by rewrite Hs.
Qed.

(** ** Commits happen at frames only *)

Lemma invoke_callback_commits_nothing (w w' : world) (es : list entry) (lead : bool) :
  invoke_callback es lead w = Some w' -> state w' = state w /\ updates w' = updates w.
Proof.
  unfold invoke_callback. destruct (callback w).
  - intros H. by destruct (createResizeHandler_wiring _ _ _ H) as (_ & ? & _ & _ & _ & _ & _ & _ & ?).
  - destruct lead; [|by intros [= <-]].
    intros H. by destruct (createResizeHandler_wiring _ _ _ H) as (_ & ? & _ & _ & _ & _ & _ & _ & ?).
Qed.

Lemma step_commits_nothing (w w' : world) (ev : event) :
  not_a_frame ev -> step w ev = Some w' -> state w' = state w /\ updates w' = updates w.
Proof.
  intros Hev. destruct ev as [p d|rs lead|es lead|trail| |]; cbn in *; try done.
  - intros [= <-]. unfold componentDidUpdate.
    by rewrite attachObserver_state, attachObserver_updates.
  - destruct (notifications w rs); [by intros [= <-] | apply invoke_callback_commits_nothing].
  - apply invoke_callback_commits_nothing.
  - unfold timer_expired. destruct (timer w); [|by intros [= <-]].
    destruct trail; [|by intros [= <-]].
    intros H. by destruct (createResizeHandler_wiring _ _ _ H) as (_ & ? & _ & _ & _ & _ & _ & _ & ?).
  - intros [= <-]. by rewrite componentWillUnmount_state, componentWillUnmount_updates.
Qed.

(** X3: the state is set and [onResize] is called at animation frames
    only: any sequence of other events (re-renders, resize notifications,
    callback batches, expiring timers, teardown) leaves the state and the
    trace of [onResize] and [setState] calls as they were.  A resize is
    therefore never reported synchronously from the observer callback. *)
Theorem only_frames_commit (w w' : world) (evs : list event) :
  Forall not_a_frame evs ->
  run w evs = Some w' ->
  state w' = state w /\ updates w' = updates w.
Proof.
  intros Hevs. revert w. induction Hevs as [|ev evs Hev _ IH]; intros w; cbn.
  - by intros [= <-].
  - destruct (step w ev) as [w1|] eqn:Hs; cbn; [|done].
    intros Hrun. destruct (step_commits_nothing _ _ _ Hev Hs) as [<- <-]. by apply IH.
Qed.

(** ** Sizes are never made up *)

Lemma traced_mono (D D' : list size) (w : world) :
  (forall s, s ∈ D -> s ∈ D') -> traced D w -> traced D' w.
Proof.
  intros H (T1 & T2 & T3 & T4). refine (conj _ (conj _ (conj _ _))); eauto.
  destruct T4; auto.
Qed.

Lemma forwarded_from_entries (w : world) (es : list entry) (s : size) :
  s ∈ forwarded w es -> exists e, e ∈ es /\ s = entry_size e.
Proof.
  unfold forwarded. intros [_ (e & -> & He)%list_elem_of_fmap]%list_elem_of_filter.
  exists e. split; [|done].
  destruct (skipOnMount w); [|done]. destruct es; [done | by apply list_elem_of_further].
Qed.

Lemma stored_args_cancel (D : list size) (a : nat) (l : list rafSchd) :
  (forall a' r s, l !! a' = Some r -> lastArgs r = Some s -> s ∈ D) ->
  forall a' r s, alter wrapperFn_cancel a l !! a' = Some r -> lastArgs r = Some s -> s ∈ D.
Proof.
  intros H a' r s Hl Hs. destruct (decide (a = a')) as [<-|Hne].
  - rewrite list_lookup_alter_eq in Hl. destruct (l !! a) as [r0|] eqn:Hl0; [|done].
    injection Hl as <-. by eapply H.
  - rewrite list_lookup_alter_ne in Hl by done. by eapply H.
Qed.

Lemma stored_args_call (D : list size) (a : nat) (s0 : size) (l : list rafSchd) :
  s0 ∈ D ->
  (forall a' r s, l !! a' = Some r -> lastArgs r = Some s -> s ∈ D) ->
  forall a' r s, alter (wrapperFn s0) a l !! a' = Some r -> lastArgs r = Some s -> s ∈ D.
Proof.
  intros H0 H a' r s Hl Hs. destruct (decide (a = a')) as [<-|Hne].
  - rewrite list_lookup_alter_eq in Hl. destruct (l !! a) as [r0|] eqn:Hl0; [|done].
    injection Hl as <-. by injection Hs as <-.
  - rewrite list_lookup_alter_ne in Hl by done. by eapply H.
Qed.

Lemma stored_args_snoc (D : list size) (l : list rafSchd) :
  (forall a' r s, l !! a' = Some r -> lastArgs r = Some s -> s ∈ D) ->
  forall a' r s, (l ++ [RafSchd None false]) !! a' = Some r -> lastArgs r = Some s -> s ∈ D.
Proof.
  intros H a' r s Hl Hs. destruct (decide (a' < length l)%nat) as [Hlt|Hge].
  - rewrite lookup_app_l in Hl by done. by eapply H.
  - rewrite lookup_app_r in Hl by lia.
    destruct (a' - length l)%nat as [|k]; cbn in Hl; [|done]. by injection Hl as <-.
Qed.

Lemma stored_args_rafClean (D : list size) (w : world) :
  (forall a' r s, schedulers w !! a' = Some r -> lastArgs r = Some s -> s ∈ D) ->
  forall a' r s, schedulers (rafClean w) !! a' = Some r -> lastArgs r = Some s -> s ∈ D.
Proof.
  intros H. unfold rafClean. destruct (raf w); cbn; [by apply stored_args_cancel | done].
Qed.

Lemma traced_handler (D : list size) (w w' : world) (es : list entry) :
  traced D w -> (forall e, e ∈ es -> entry_size e ∈ D) ->
  createResizeHandler w es = Some w' -> traced D w'.
Proof.
  intros (T1 & T2 & T3 & T4) Hes H.
  pose proof (createResizeHandler_wiring _ _ _ H) as (_ & Est & Et & _).
  pose proof (createResizeHandler_log _ _ _ H) as El.
  assert (forall s, s ∈ forwarded w es -> s ∈ D) as Hfw
    by (intros s (e & He & ->)%forwarded_from_entries; by apply Hes).
  refine (conj _ (conj _ (conj _ _))).
  - destruct (enabled w) eqn:He.
    + rewrite createResizeHandler_enabled in H by done. injection H as <-.
      unfold batch_result, createUpdater. cbn.
      pose proof (stored_args_snoc D _ (stored_args_rafClean D w T1)) as Hl.
      destruct (last (forwarded w es)) as [s0|] eqn:Hlast; [|exact Hl].
      apply stored_args_call; [|exact Hl]. by apply Hfw, last_Some_elem_of.
    + rewrite createResizeHandler_disabled in H by done. by injection H as <-.
  - intros es' e. rewrite Et. apply T2.
  - intros e s. rewrite El. intros [Hin|(s0 & -> & Hin)%list_elem_of_fmap]%elem_of_app.
    + by apply T3.
    + intros [= <-]. by apply Hfw.
  - by rewrite Est.
Qed.

Lemma traced_set_timer (D : list size) (w : world) (t : option (list entry)) :
  traced D w -> (forall es e, t = Some es -> e ∈ es -> entry_size e ∈ D) ->
  traced D (set_timer t w).
Proof. intros (T1 & T2 & T3 & T4) H. by refine (conj _ (conj _ (conj _ _))). Qed.

Lemma traced_invoke_callback (D : list size) (w w' : world) (es : list entry) (lead : bool) :
  traced D w -> (forall e, e ∈ es -> entry_size e ∈ D) ->
  invoke_callback es lead w = Some w' -> traced D w'.
Proof.
  intros Hw Hes. unfold invoke_callback. destruct (callback w).
  - by apply traced_handler.
  - destruct lead.
    + apply traced_handler; [|done]. by apply traced_set_timer.
    + intros [= <-]. apply traced_set_timer; [done|]. intros ? e [= <-]. apply Hes.
Qed.

Lemma traced_attachObserver (D : list size) (d : dom) (w : world) :
  traced D w -> traced D (attachObserver d w).
Proof.
  intros (T1 & T2 & T3 & T4).
  unfold attachObserver, copy_targetRef, observe;
    repeat case_match; refine (conj _ (conj _ (conj _ _))); cbn; try done;
    (intros e s [Hin|Hin]%elem_of_app;
     [by eauto | by apply list_elem_of_singleton in Hin as ->]).
Qed.

Lemma traced_run_frames (D : list size) (addresses : list nat) :
  forall w w', traced D w -> run_frames w addresses = Some w' -> traced D w'.
Proof.
  induction addresses as [|a addresses IH]; intros w w' Hw; cbn; [by intros [= <-]|].
  destruct (run_frame w a) as [w1|] eqn:H1; cbn; [|done].
  apply IH. destruct Hw as (T1 & T2 & T3 & T4). unfold run_frame in H1.
  destruct (schedulers w !! a) as [r|] eqn:Hl; [|by injection H1 as <-].
  destruct (frameId r); [|by injection H1 as <-].
  destruct (lastArgs r) as [s|] eqn:Hs; cbn in H1; [|done]. injection H1 as <-.
  assert (s ∈ D) as HsD by (by eapply T1).
  refine (conj _ (conj _ (conj _ _))).
  - rewrite flush_schedulers. cbn. by apply stored_args_cancel.
  - unfold flush. by destruct (isFunction _).
  - intros e s'. rewrite flush_log. cbn. unfold onResize_call. cbn.
    intros [Hin|[Hin|Hin]%elem_of_app]%elem_of_app.
    + by apply T3.
    + destruct (isFunction _); [|by apply elem_of_nil in Hin].
      apply list_elem_of_singleton in Hin as ->. cbn. intros [= <-]. by destruct s.
    + apply list_elem_of_singleton in Hin as ->. by intros [= <-].
  - right. by rewrite flush_state.
Qed.

Lemma traced_unmount (D : list size) (w : world) :
  traced D w -> traced D (componentWillUnmount w).
Proof.
  intros (T1 & T2 & T3 & T4). refine (conj _ (conj _ (conj _ _))).
  - rewrite componentWillUnmount_schedulers. by apply stored_args_rafClean.
  - destruct w as [? ? ? [a|] ? ? ? [[|h]|] ? ? ? ? ? ?]; cbn in *; done.
  - assert (log (componentWillUnmount w) = log w ++ [Disconnect]) as ->
      by (destruct w as [? ? ? [a|] ? ? ? [[|h]|] ? ? ? ? ? ?]; reflexivity).
    intros e s [Hin|Hin]%elem_of_app;
      [by apply T3 | by apply list_elem_of_singleton in Hin as ->].
  - by rewrite componentWillUnmount_state.
Qed.

Lemma step_traced (D : list size) (w w' : world) (ev : event) :
  traced D w -> step w ev = Some w' -> traced (D ++ event_sizes ev) w'.
Proof.
  intros Hw.
  assert (traced (D ++ event_sizes ev) w) as Hw'
    by (eapply traced_mono; [|done]; intros s Hs; apply elem_of_app; by left).
  destruct ev as [p d|rs lead|es lead|trail| |]; cbn [step].
  - intros [= <-]. apply traced_attachObserver.
    destruct Hw' as (T1 & T2 & T3 & T4). by refine (conj _ (conj _ (conj _ _))).
  - assert (forall e, e ∈ notifications w rs -> entry_size e ∈ D ++ event_sizes (Resized rs lead))
      as Hn.
    { intros e. unfold notifications.
      intros (r & -> & [_ Hr]%list_elem_of_filter)%list_elem_of_fmap.
      apply elem_of_app. right. cbn. by apply list_elem_of_fmap_2. }
    destruct (notifications w rs) as [|e es]; [by intros [= <-]|].
    by apply traced_invoke_callback.
  - apply traced_invoke_callback; [done|]. intros e He. apply elem_of_app. right.
    cbn. by apply list_elem_of_fmap_2.
  - unfold timer_expired. destruct (timer w) as [es|] eqn:Ht; [|by intros [= <-]].
    destruct trail.
    + apply traced_handler; [by apply traced_set_timer|].
      destruct Hw' as (_ & T2 & _). intros e. by apply T2.
    + intros [= <-]. by apply traced_set_timer.
  - by apply traced_run_frames.
  - intros [= <-]. by apply traced_unmount.
Qed.

Lemma run_traced (evs : list event) :
  forall D w w', traced D w -> run w evs = Some w' -> traced (D ++ delivered evs) w'.
Proof.
  induction evs as [|ev evs IH]; intros D w w' Hw; cbn.
  - intros [= <-]. by rewrite app_nil_r.
  - destruct (step w ev) as [w1|] eqn:Hs; cbn; [|done].
    intros Hrun.
    change (delivered (ev :: evs)) with (event_sizes ev ++ delivered evs).
    rewrite app_assoc. eapply IH; [|done]. by eapply step_traced.
Qed.

(** X4: the component never makes up a size.  Whatever happened since
    mount, every size passed to the updater, to [onResize] or to
    [setState] is the size read off an entry that was delivered, and the
    state is either still undefined or such a size. *)
Theorem committed_sizes_were_delivered
    (ssr : bool) (p : Props.t) (d : dom) (evs : list event) (w : world) :
  run (mount ssr p d) evs = Some w ->
  (forall e s, e ∈ log w -> effect_size e = Some s -> s ∈ delivered evs) /\
  (state w = Size Undefined Undefined \/ state w ∈ delivered evs).
Proof.
  intros Hrun.
  assert (traced [] (mount ssr p d)) as Hm.
  { apply traced_attachObserver. refine (conj _ (conj _ (conj _ _))); cbn; try done.
    - intros e s Hin. by apply elem_of_nil in Hin.
    - by left. }
  by destruct (run_traced evs [] _ _ Hm Hrun) as (_ & _ & T3 & T4).
Qed.

(** ** From mount to the first commit *)

Lemma copy_targetRef_fields (w : world) :
  props (copy_targetRef w) = props w /\ state (copy_targetRef w) = state w /\
  skipOnMount (copy_targetRef w) = skipOnMount w /\ isSSR (copy_targetRef w) = isSSR w /\
  callback (copy_targetRef w) = callback w /\ observed (copy_targetRef w) = observed w /\
  observableElement (copy_targetRef w) = observableElement w /\ log (copy_targetRef w) = log w.
Proof. unfold copy_targetRef. by repeat case_match. Qed.

Lemma mount_resolved (ssr : bool) (p : Props.t) (d : dom) (n : node) :
  getElement d (copy_targetRef (constructor ssr p)) = Some n ->
  mount ssr p d = observe n (set_observableElement (Some n) (copy_targetRef (constructor ssr p))).
Proof.
  intros Hg. unfold mount, componentDidMount, attachObserver. rewrite Hg.
  destruct (copy_targetRef_fields (constructor ssr p)) as (_ & _ & _ & _ & _ & _ & Ho & _).
  by rewrite bool_decide_eq_false_2 by (by rewrite Ho).
Qed.

Lemma run_frames_props (addresses : list nat) :
  forall w w', run_frames w addresses = Some w' ->
    props w' = props w /\ observed w' = observed w.
Proof.
  induction addresses as [|a addresses IH]; intros w w'; cbn; [by intros [= <-]|].
  destruct (run_frame w a) as [w1|] eqn:H1; cbn; [|done].
  intros H. apply IH in H as [-> ->].
  unfold run_frame, flush in H1.
  destruct (schedulers w !! a) as [r|]; [|by injection H1 as <-].
  destruct (frameId r); [|by injection H1 as <-].
  destruct (lastArgs r); cbn in H1; [|done].
  injection H1 as <-. by destruct (isFunction _).
Qed.

Lemma updates_after_flush (w w' : world) (s : size) :
  log w' = log w ++ onResize_call w s ++ [SetState s] ->
  updates w' = updates w ++ onResize_call w s ++ [SetState s].
Proof.
  intros H. unfold updates. rewrite H, filter_app. f_equal.
  unfold onResize_call. by destruct (isFunction _).
Qed.

(** X5: from mount to the first commit.  In a browser, with
    [skipOnMount] off, a handled dimension and no refresh mode, when
    resolution finds node [n]: mounting registers [n], a first
    notification for [n] with a numeric size is passed to the updater, and
    the next frame calls [onResize] (if it is a function) once with that
    width and height and then sets the state to it; a function child is
    then rendered with that size. *)
Theorem first_measurement_is_delivered
    (p : Props.t) (d : dom) (n : node) (a b : Z) (lead : bool) :
  Props.skipOnMount p = false ->
  Props.handleWidth p || Props.handleHeight p = true ->
  getHandle (Props.refreshMode p) = None ->
  getElement d (copy_targetRef (constructor false p)) = Some n ->
  exists w,
    run (mount false p d) [Resized [(n, Size (Px a) (Px b))] lead; AnimationFrame] = Some w /\
    observed w = {[n]} /\
    state w = Size (Px a) (Px b) /\
    log w = [Observe n; Updater (Size (Px a) (Px b))]
            ++ (if isFunction (Props.onResize p) then [OnResize (Px a) (Px b)] else [])
            ++ [SetState (Size (Px a) (Px b))] /\
    (isFunction (Props.render p) = false ->
     forall f, Props.children p = JFunction f -> render w = Some (f (Size (Px a) (Px b)))).
Proof.
  intros Hsk He Hh Hg. set (s := Size (Px a) (Px b)).
  pose proof (mount_coherent false p d) as Hc.
  pose proof (mount_resolved false p d n Hg) as Em.
  destruct (copy_targetRef_fields (constructor false p))
    as (Ep & Est & Esk & Essr & Ecb & Eo & _ & El).
  assert (props (mount false p d) = p /\ state (mount false p d) = Size Undefined Undefined /\
          skipOnMount (mount false p d) = false /\ isSSR (mount false p d) = false /\
          callback (mount false p d) = plainHandler /\ observed (mount false p d) = {[n]} /\
          log (mount false p d) = [Observe n]) as (Mp & Mst & Msk & Mssr & Mcb & Mo & Ml).
  { rewrite Em. cbn. rewrite Ep, Est, Esk, Essr, Ecb, Eo, El. cbn. rewrite Hh.
    repeat split; try done. apply (right_id_L ∅ (∪)). }
  generalize dependent (mount false p d). intros m Hc _ Mp Mst Msk Mssr Mcb Mo Ml.
  assert (enabled m = true) as Hen by (unfold enabled; by rewrite Mp).
  assert (notifications m [(n, s)] = [Entry n (Rect s)]) as Hn.
  { unfold notifications. rewrite filter_cons, decide_True; [done|].
    cbn. rewrite Mo. by apply elem_of_singleton. }
  assert (forwarded m [Entry n (Rect s)] = [s]) as Hfw.
  { unfold forwarded. rewrite Msk. cbn [fmap list_fmap entry_size].
    rewrite filter_cons, decide_True; [done|].
    unfold qualifies, isSizeChanged, strict_ne. rewrite Mp, Mst, Mssr. cbn.
    by destruct (Props.handleWidth p), (Props.handleHeight p). }
  destruct (createResizeHandler_total m [Entry n (Rect s)]) as [w1 H1].
  pose proof (createResizeHandler_coherent _ _ _ Hc H1) as Hc1.
  pose proof (createResizeHandler_wiring _ _ _ H1) as (Ep1 & _ & _ & _ & _ & _ & Eo1 & _).
  pose proof (createResizeHandler_log _ _ _ H1) as El1. rewrite Hfw, Ml in El1.
  destruct (frame_commits_pending w1 Hc1) as (w2 & H2 & Hw2).
  rewrite (pending_flush_batch m w1 _ Hen H1), Hfw in Hw2. cbn in Hw2.
  destruct Hw2 as [Hs2 Hl2].
  destruct (run_frames_props _ _ _ H2) as [Ep2 Eo2].
  exists w2. split.
  { cbn [run step]. rewrite Hn. unfold invoke_callback. rewrite Mcb, H1. cbn. by rewrite H2. }
  split; [by rewrite Eo2, Eo1|]. split; [done|]. split.
  - rewrite Hl2, El1. unfold onResize_call. rewrite Ep1, Mp. cbn.
    by destruct (isFunction (Props.onResize p)).
  - intros Hr f Hf. unfold render, getRenderType. rewrite Ep2, Ep1, Mp, Hr, Hf, Hs2. done.
Qed.

(** ** A ref that was cleared *)

(** X6: [this.targetRef] is only ever overwritten with a truthy
    [current].  Once it holds a node, a re-render whose [targetRef] prop is
    absent or has a falsy [current] (and that names no selector and no
    [targetDomEl] element) still resolves to that node and keeps it as the
    tracked element: clearing the external ref does not release the
    target. *)
Theorem cleared_ref_stays_resolved (d : dom) (w : world) (p' : Props.t) (n : node) :
  isSSR w = false ->
  targetRef w = JDomElement n ->
  Props.querySelector p' = None ->
  isDOMElement (Props.targetDomEl p') = false ->
  ref_cleared p' ->
  targetRef (componentDidUpdate d (set_props p' w)) = JDomElement n /\
  getElement d (copy_targetRef (set_props p' w)) = Some n /\
  observableElement (componentDidUpdate d (set_props p' w)) = Some n.
Proof.
  intros Hssr Href Hq Hdom Hclr.
  assert (copy_targetRef (set_props p' w) = set_props p' w) as Ecopy.
  { unfold copy_targetRef, ref_cleared in *. cbn.
    destruct (Props.targetRef p'); [by rewrite Hclr | done]. }
  assert (getElement d (set_props p' w) = Some n) as Hg.
  { unfold getElement. cbn. by rewrite Hssr, Hq, Hdom, andb_false_r, Href. }
  unfold componentDidUpdate, attachObserver. rewrite Ecopy, Hg.
  split; [|split; [done|]]; by case_bool_decide.
Qed.

(** ** Between a batch and its frame *)

Lemma pending_flush_didUpdate (d : dom) (p : Props.t) (w : world) :
  pending_flush (componentDidUpdate d (set_props p w)) = pending_flush w.
Proof.
  unfold pending_flush, componentDidUpdate.
  by rewrite attachObserver_raf, attachObserver_schedulers.
Qed.

(** X7: [onResize] is read from the props when the frame comes, not when
    the batch is handled: if the component is re-rendered with other props
    while a size waits for its frame, the flush commits that size and
    calls the [onResize] of the new props, or none if the new props have
    none. *)
Theorem flush_reads_onResize_at_the_frame
    (ssr : bool) (p : Props.t) (d : dom) (evs : list event) (w : world) (s : size)
    (p' : Props.t) (d' : dom) :
  run (mount ssr p d) evs = Some w ->
  pending_flush w = Some s ->
  exists w', run w [DidUpdate p' d'; AnimationFrame] = Some w' /\
    state w' = s /\
    updates w' = updates w
                 ++ (if isFunction (Props.onResize p') then [OnResize (width s) (height s)] else [])
                 ++ [SetState s].
Proof.
  intros Hrun Hp.
  assert (coherent w) as Hc by (eapply run_coherent; [apply mount_coherent | done]).
  remember (componentDidUpdate d' (set_props p' w)) as w1 eqn:E1.
  assert (coherent w1) as Hc1 by (subst w1; by apply (step_coherent w _ (DidUpdate p' d'))).
  destruct (frame_commits_pending w1 Hc1) as (w2 & H2 & Hw2).
  assert (pending_flush w1 = Some s) as Hp1 by (subst w1; by rewrite pending_flush_didUpdate).
  rewrite Hp1 in Hw2. destruct Hw2 as [Hs2 Hl2].
  exists w2. split; [cbn [run step]; rewrite <- E1; cbn; by rewrite H2|]. split; [done|].
  rewrite (updates_after_flush _ _ _ Hl2). subst w1. unfold componentDidUpdate, onResize_call.
  by rewrite attachObserver_updates, attachObserver_props.
Qed.

(** X8: a size waiting for its frame is dropped when another batch is
    handled first, even a batch that passes nothing to the updater: the
    next frame then commits nothing.  With both dimensions unhandled the
    handler returns before it replaces the scheduler, and the waiting size
    is still committed. *)
Theorem next_batch_replaces_pending_flush
    (ssr : bool) (p : Props.t) (d : dom) (evs : list event) (w : world) (s : size)
    (es : list entry) :
  run (mount ssr p d) evs = Some w ->
  pending_flush w = Some s ->
  Forall (fun e => qualifies w (entry_size e) = false) es ->
  exists w1 w2,
    createResizeHandler w es = Some w1 /\
    animation_frame w1 = Some w2 /\
    (enabled w = true -> state w2 = state w /\ updates w2 = updates w) /\
    (enabled w = false ->
       state w2 = s /\ updates w2 = updates w ++ onResize_call w s ++ [SetState s]).
Proof.
  intros Hrun Hp Hes.
  assert (coherent w) as Hc by (eapply run_coherent; [apply mount_coherent | done]).
  destruct (createResizeHandler_total w es) as [w1 H1].
  pose proof (createResizeHandler_coherent _ _ _ Hc H1) as Hc1.
  pose proof (createResizeHandler_wiring _ _ _ H1) as (_ & Est & _ & _ & _ & _ & _ & _ & Eu).
  destruct (frame_commits_pending w1 Hc1) as (w2 & H2 & Hw2).
  exists w1, w2. split; [done|]. split; [done|]. split.
  - intros He. rewrite (pending_flush_batch w w1 es He H1), forwarded_nil in Hw2 by done.
    cbn in Hw2. by subst w2.
  - intros He. rewrite createResizeHandler_disabled in H1 by done. injection H1 as <-.
    rewrite Hp in Hw2. destruct Hw2 as [Hs2 Hl2]. split; [done|].
    by apply updates_after_flush.
Qed.

(** X9: the size committed is the whole content rectangle, whatever is
    handled.  With only the width handled, an entry whose width differs
    from the state commits its width and its height; an entry whose width
    equals the state commits nothing, whatever its height. *)
Theorem unhandled_dimension_rides_along
    (ssr : bool) (p : Props.t) (d : dom) (evs : list event) (w : world) (e : entry) :
  run (mount ssr p d) evs = Some w ->
  Props.handleWidth (props w) = true ->
  Props.handleHeight (props w) = false ->
  skipOnMount w = false ->
  isSSR w = false ->
  exists w1 w2,
    createResizeHandler w [e] = Some w1 /\
    animation_frame w1 = Some w2 /\
    (width (entry_size e) <> width (state w) -> state w2 = entry_size e) /\
    (width (entry_size e) = width (state w) -> state w2 = state w /\ updates w2 = updates w).
Proof.
  intros Hrun Hw Hh Hsk Hssr.
  assert (coherent w) as Hc by (eapply run_coherent; [apply mount_coherent | done]).
  assert (enabled w = true) as He by (unfold enabled; by rewrite Hw).
  assert (qualifies w (entry_size e) = bool_decide (width (state w) <> width (entry_size e)))
    as Hq by (unfold qualifies, isSizeChanged, strict_ne; rewrite Hw, Hh, Hssr; cbn;
              by rewrite orb_false_r, andb_true_r).
  destruct (createResizeHandler_total w [e]) as [w1 H1].
  pose proof (createResizeHandler_coherent _ _ _ Hc H1) as Hc1.
  pose proof (createResizeHandler_wiring _ _ _ H1) as (_ & Est & _ & _ & _ & _ & _ & _ & Eu).
  destruct (frame_commits_pending w1 Hc1) as (w2 & H2 & Hw2).
  rewrite (pending_flush_batch w w1 [e] He H1) in Hw2.
  unfold forwarded in Hw2. rewrite Hsk in Hw2. cbn [fmap list_fmap] in Hw2.
  rewrite filter_cons in Hw2.
  exists w1, w2. split; [done|]. split; [done|]. split.
  - intros Hne. rewrite decide_True in Hw2 by (rewrite Hq; by apply bool_decide_pack).
    cbn in Hw2. by destruct Hw2.
  - intros Heq. rewrite decide_False in Hw2.
    + cbn in Hw2. by subst w2.
    + rewrite Hq. intros Hb%bool_decide_unpack. by apply Hb.
Qed.

(** X10: the mount skip is spent by the first entry that is examined, not
    by the first call of the handler: an empty batch, and any batch
    handled while neither dimension is handled, leaves the flag up, calls
    nothing and leaves the state as it is. *)
Theorem mount_skip_waits_for_an_entry (w : world) (es : list entry) :
  skipOnMount w = true ->
  es = [] \/ enabled w = false ->
  exists w1, createResizeHandler w es = Some w1 /\
    skipOnMount w1 = true /\ state w1 = state w /\ log w1 = log w.
Proof.
  intros Hsk Hcase.
  destruct (createResizeHandler_total w es) as [w1 H1]. exists w1. split; [done|].
  pose proof (createResizeHandler_wiring _ _ _ H1) as (_ & Est & _).
  split; [|split; [done|]].
  - rewrite (createResizeHandler_skipOnMount _ _ _ H1).
    destruct Hcase as [-> | ->]; [by destruct (enabled w) | done].
  - rewrite (createResizeHandler_log _ _ _ H1).
    destruct Hcase as [-> | He].
    + unfold forwarded. rewrite Hsk. cbn. apply app_nil_r.
    + rewrite forwarded_nil; [apply app_nil_r|].
      apply Forall_forall. intros e _. unfold qualifies, isSizeChanged.
      unfold enabled in He. apply orb_false_elim in He as [-> ->]. done.
Qed.

(** ** Concrete runs of the further properties *)

Lemma only_frames_commit_witness :
  run committed_world [DidUpdate (sample_props 2%positive) sample_dom; WillUnmount]
    = Some (componentWillUnmount
              (componentDidUpdate sample_dom (set_props (sample_props 2%positive) committed_world))) /\
  state (componentWillUnmount
           (componentDidUpdate sample_dom (set_props (sample_props 2%positive) committed_world)))
    = px 100 50.
Proof.
  split; [reflexivity|].
  apply (only_frames_commit committed_world _
           [DidUpdate (sample_props 2%positive) sample_dom; WillUnmount]);
    [repeat constructor | reflexivity].
Defined.

Lemma committed_sizes_were_delivered_witness :
  run (mount false (sample_props 1%positive) sample_dom)
      [Resized [(1%positive, px 100 50)] false; AnimationFrame] = Some committed_world /\
  forall e s, e ∈ log committed_world -> effect_size e = Some s -> s ∈ [px 100 50].
Proof.
  assert (run (mount false (sample_props 1%positive) sample_dom)
            [Resized [(1%positive, px 100 50)] false; AnimationFrame] = Some committed_world)
    as Hrun by (vm_compute; reflexivity).
  split; [exact Hrun|].
  exact (proj1 (committed_sizes_were_delivered false (sample_props 1%positive) sample_dom
                  [Resized [(1%positive, px 100 50)] false; AnimationFrame]
                  committed_world Hrun)).
Defined.

Lemma first_measurement_is_delivered_witness :
  exists w,
    run (mount false (sample_props 1%positive) sample_dom)
        [Resized [(1%positive, px 100 50)] false; AnimationFrame] = Some w /\
    state w = px 100 50 /\
    log w = [Observe 1%positive; Updater (px 100 50); OnResize (Px 100) (Px 50);
             SetState (px 100 50)].
Proof.
  destruct (first_measurement_is_delivered (sample_props 1%positive) sample_dom 1%positive
              100 50 false eq_refl eq_refl eq_refl eq_refl) as (w & Hrun & _ & Hst & Hlog & _).
  exists w. split; [exact Hrun|]. split; [exact Hst | exact Hlog].
Defined.

Lemma cleared_ref_stays_resolved_witness :
  targetRef (copy_targetRef (constructor false all_targets)) = JDomElement 2%positive /\
  observableElement
    (componentDidUpdate sample_dom
       (set_props Props.defaultProps (copy_targetRef (constructor false all_targets))))
  = Some 2%positive.
Proof.
  split; [reflexivity|].
  destruct (cleared_ref_stays_resolved sample_dom (copy_targetRef (constructor false all_targets))
              Props.defaultProps 2%positive eq_refl eq_refl eq_refl eq_refl I) as (_ & _ & H).
  exact H.
Defined.

Lemma flush_reads_onResize_at_the_frame_witness :
  pending_flush busy_world = Some (px 100 50) /\
  exists w', run busy_world [DidUpdate Props.defaultProps sample_dom; AnimationFrame] = Some w' /\
    state w' = px 100 50 /\
    updates w' = updates busy_world ++ [SetState (px 100 50)].
Proof.
  split; [reflexivity|].
  assert (run (mount false (with_refreshMode "debounce" (sample_props 1%positive)) sample_dom)
            [Resized [(1%positive, px 100 50)] true; Resized [(1%positive, px 120 50)] false]
          = Some busy_world) as Hrun by (vm_compute; reflexivity).
  exact (flush_reads_onResize_at_the_frame false
           (with_refreshMode "debounce" (sample_props 1%positive)) sample_dom
           [Resized [(1%positive, px 100 50)] true; Resized [(1%positive, px 120 50)] false]
           busy_world (px 100 50) Props.defaultProps sample_dom Hrun eq_refl).
Defined.

Lemma next_batch_replaces_pending_flush_witness :
  pending_flush busy_world = Some (px 100 50) /\
  exists w1 w2,
    createResizeHandler busy_world [EntryNull] = Some w1 /\
    animation_frame w1 = Some w2 /\
    state w2 = state busy_world /\ updates w2 = updates busy_world.
Proof.
  split; [reflexivity|].
  assert (run (mount false (with_refreshMode "debounce" (sample_props 1%positive)) sample_dom)
            [Resized [(1%positive, px 100 50)] true; Resized [(1%positive, px 120 50)] false]
          = Some busy_world) as Hrun by (vm_compute; reflexivity).
  destruct (next_batch_replaces_pending_flush false
              (with_refreshMode "debounce" (sample_props 1%positive)) sample_dom
              [Resized [(1%positive, px 100 50)] true; Resized [(1%positive, px 120 50)] false]
              busy_world (px 100 50) [EntryNull] Hrun eq_refl
              ltac:(repeat constructor)) as (w1 & w2 & H1 & H2 & Hen & _).
  exists w1, w2. split; [exact H1|]. split; [exact H2|]. exact (Hen eq_refl).
Defined.

Lemma unhandled_dimension_rides_along_witness :
  state width_only_world = px 100 50 /\
  exists w1 w2,
    createResizeHandler width_only_world [Entry 1%positive (Rect (px 100 70))] = Some w1 /\
    animation_frame w1 = Some w2 /\
    state w2 = px 100 50.
Proof.
  split; [reflexivity|].
  assert (run (mount false (with_handles true false (sample_props 1%positive)) sample_dom)
            [Resized [(1%positive, px 100 50)] false; AnimationFrame] = Some width_only_world)
    as Hrun by (vm_compute; reflexivity).
  destruct (unhandled_dimension_rides_along false
              (with_handles true false (sample_props 1%positive)) sample_dom
              [Resized [(1%positive, px 100 50)] false; AnimationFrame] width_only_world
              (Entry 1%positive (Rect (px 100 70))) Hrun eq_refl eq_refl eq_refl eq_refl)
    as (w1 & w2 & H1 & H2 & _ & Hsame).
  exists w1, w2. split; [exact H1|]. split; [exact H2|]. exact (proj1 (Hsame eq_refl)).
Defined.

Lemma mount_skip_waits_for_an_entry_witness :
  skipOnMount skipping_world = true /\
  exists w1, createResizeHandler skipping_world [] = Some w1 /\
    skipOnMount w1 = true /\ state w1 = state skipping_world /\ log w1 = log skipping_world.
Proof.
  split; [reflexivity|].
  exact (mount_skip_waits_for_an_entry skipping_world [] eq_refl (or_introl eq_refl)).
Defined.
